(** * Cookie-backed sessions: configuration, store binding and accessors

    A shallow embedding of package [session] (a thin layer over
    gorilla/sessions and gorilla/securecookie) together with the properties
    its specification states about it.

    Conventions.
    - A Go [string] is a Rocq [string]: a sequence of bytes; [len] is
      [String.length].
    - [time.Duration] and [int64] are [Z]; a duration counts nanoseconds.
    - A Go function returning [(T, error)] returns a pair whose second
      component is an [option error] ([None] is [nil]).
    - A run-time panic is the [Panic] outcome of the [Res] type.
    - The request carries the gorilla session registry, so every accessor is
      a function from the request (and the response) to a result and the
      updated request (and response). *)

From Stdlib Require Import ZArith Ascii String List Lia Bool.
From stdpp Require Import base option strings gmap list.

Local Open Scope Z_scope.

(** ** Go strings as byte sequences *)

Module bytes.

Definition t := list ascii.

Definition of_string (s : string) : t := list_ascii_of_string s.
Definition to_string (l : t) : string := string_of_list_ascii l.

(** [strings.HasPrefix] followed by slicing the prefix off. *)
Fixpoint cut_prefix (p s : t) : option t :=
  match p, s with
  | [], _ => Some s
  | _ :: _, [] => None
  | a :: p', b :: s' => if Ascii.eqb a b then cut_prefix p' s' else None
  end.

(** The first pattern of [pats] that starts [s], cut off. *)
Fixpoint cut_any (pats : list t) (s : t) : option t :=
  match pats with
  | [] => None
  | p :: pats' =>
      match cut_prefix p s with
      | Some rest => Some rest
      | None => cut_any pats' s
      end
  end.

(** Cut leading patterns off while one matches; [fuel] bounds the number
    of rounds. *)
Fixpoint trim_left (pats : list t) (fuel : nat) (s : t) : t :=
  match fuel with
  | O => s
  | S fuel' =>
      match s with
      | [] => []
      | _ :: _ =>
          match cut_any pats s with
          | Some rest => trim_left pats fuel' rest
          | None => s
          end
      end
  end.

End bytes.

(** ** Package [unicode] and [strings]: white space *)

Module unicode.

(** The UTF-8 encodings of the runes for which [unicode.IsSpace] holds:
    TAB, LF, VT, FF, CR, SPACE, U+0085, U+00A0, U+1680, U+2000..U+200A,
    U+2028, U+2029, U+202F, U+205F and U+3000.  UTF-8 has one encoding per
    rune and an ill-formed byte decodes to U+FFFD, which is no space, so a
    string starts (ends) with a space rune exactly when it starts (ends)
    with one of these byte sequences. *)
Definition space_codes : list (list N) :=
  [ [9]; [10]; [11]; [12]; [13]; [32];
    [194; 133]; [194; 160];
    [225; 154; 128];
    [226; 128; 128]; [226; 128; 129]; [226; 128; 130]; [226; 128; 131];
    [226; 128; 132]; [226; 128; 133]; [226; 128; 134]; [226; 128; 135];
    [226; 128; 136]; [226; 128; 137]; [226; 128; 138];
    [226; 128; 168]; [226; 128; 169]; [226; 128; 175];
    [226; 129; 159];
    [227; 128; 128] ]%N.

Definition space_runes : list bytes.t :=
  Eval cbv in map (map ascii_of_N) space_codes.

End unicode.

Module strings.

(** [strings.TrimLeftFunc(s, unicode.IsSpace)] *)
Definition TrimLeftSpace (s : bytes.t) : bytes.t :=
  bytes.trim_left unicode.space_runes (List.length s) s.

(** [strings.TrimRightFunc(s, unicode.IsSpace)]: the same walk from the
    end of the string. *)
Definition TrimRightSpace (s : bytes.t) : bytes.t :=
  rev (bytes.trim_left (map (@rev ascii) unicode.space_runes)
         (List.length s) (rev s)).

(** [strings.TrimSpace] *)
Definition TrimSpace (s : string) : string :=
  bytes.to_string (TrimRightSpace (TrimLeftSpace (bytes.of_string s))).

End strings.

(** A string made of white space only: a concatenation of encoded space
    runes (the empty string included). *)
Definition whitespace_only (s : string) : Prop :=
  exists runes : list bytes.t,
    Forall (fun p => In p unicode.space_runes) runes /\
    bytes.of_string s = concat runes.

(** ** Errors *)

Inductive error : Type :=
  | ErrAuthKeyWrongSize
  | ErrEncyptKeyWrongSize
  | ErrMaxAgeTooShort
  | ErrKeyNotFound
  (** [*strconv.NumError] wrapping [strconv.ErrSyntax] / [strconv.ErrRange] *)
  | NumErrSyntax (fn num : string)
  | NumErrRange (fn num : string)
  (** [securecookie.MultiError]: one message per codec that failed *)
  | MultiError (msgs : list string)
  (** gorilla/sessions: invalid character in cookie name *)
  | ErrCookieName (name : string)
  (** gorilla/securecookie: no codecs provided *)
  | ErrNoCodecs.

(** Outcome of a call: a returned value or a run-time panic. *)
Inductive Res (A : Type) : Type :=
  | Ret (a : A)
  | Panic (msg : string).
Arguments Ret {A} a.
Arguments Panic {A} msg.

#[global] Instance Res_ret : MRet Res := fun A a => Ret a.
#[global] Instance Res_bind : MBind Res := fun A B k m =>
  match m with
  | Ret a => k a
  | Panic msg => Panic msg
  end.

Definition nil_dereference : string :=
  "invalid memory address or nil pointer dereference".

(** ** Dynamically typed values ([interface{}])

    The session of gorilla/sessions maps [interface{}] to [interface{}].
    Three dynamic types stand for all: the string, which is what this package
    writes, and two that are no strings. *)

Inductive Dyn : Type :=
  | DStr (s : string)
  | DInt (n : Z)
  | DBool (b : bool).

#[global] Instance Dyn_eq_dec : EqDecision Dyn.
Proof. solve_decision. Defined.

#[global] Instance Dyn_countable : Countable Dyn.
Proof.
  refine (inj_countable'
            (fun d => match d with
                      | DStr s => inl s
                      | DInt n => inr (inl n)
                      | DBool b => inr (inr b)
                      end)
            (fun x => match x with
                      | inl s => DStr s
                      | inr (inl n) => DInt n
                      | inr (inr b) => DBool b
                      end) _).
  intros []; reflexivity.
Defined.

(** [v.(string)] in its two-result form. *)
Definition as_string (v : option Dyn) : option string :=
  match v with
  | Some (DStr s) => Some s
  | _ => None
  end.

(** ** Package [securecookie] (external): codecs and random keys *)

Module securecookie.

(** A [*SecureCookie], the codec that [securecookie.New] makes of a hash
    key and a block key. *)
Record SecureCookie : Type := {
  hashKey : string;
  blockKey : string
}.

(** [securecookie.New] *)
Definition New (hashKey blockKey : string) : SecureCookie :=
  {| hashKey := hashKey; blockKey := blockKey |}.

(** [securecookie.CodecsFromPairs]: a codec per pair of keys; a last key
    without a partner is a hash key with no block key. *)
Fixpoint CodecsFromPairs (keyPairs : list string) : list SecureCookie :=
  match keyPairs with
  | [] => []
  | [hashKey] => [New hashKey ""]
  | hashKey :: blockKey :: rest => New hashKey blockKey :: CodecsFromPairs rest
  end.

Section Methods.

(** The two methods of a codec: sealing a session's values into a cookie
value and unsealing a cookie value, under the codec's keys.  What they
compute -- serialization, encryption, the MAC, the time stamp -- is
outside this development, so they are parameters; [inr msg] is a
failure. *)
Variable Encode : SecureCookie -> string -> gmap Dyn Dyn -> string + string.
Variable Decode : SecureCookie -> string -> string -> gmap Dyn Dyn + string.

Fixpoint encode_loop (name : string) (value : gmap Dyn Dyn)
(codecs : list SecureCookie) (errors : list string) : string * option error :=
match codecs with
| [] => (""%string, Some (MultiError errors))
| codec :: rest =>
  match Encode codec name value with
  | inl encoded => (encoded, None)
  | inr err => encode_loop name value rest (errors ++ [err])
  end
end.

(** [securecookie.EncodeMulti] *)
Definition EncodeMulti (name : string) (value : gmap Dyn Dyn)
(codecs : list SecureCookie) : string * option error :=
match codecs with
| [] => (""%string, Some ErrNoCodecs)
| _ :: _ => encode_loop name value codecs []
end.

Fixpoint decode_loop (name value : string) (codecs : list SecureCookie)
(errors : list string) : option (gmap Dyn Dyn) * option error :=
match codecs with
| [] => (None, Some (MultiError errors))
| codec :: rest =>
  match Decode codec name value with
  | inl dst => (Some dst, None)
  | inr err => decode_loop name value rest (errors ++ [err])
  end
end.

(** [securecookie.DecodeMulti]: the first component is what was decoded
into [dst], if anything. *)
Definition DecodeMulti (name value : string) (codecs : list SecureCookie)
: option (gmap Dyn Dyn) * option error :=
match codecs with
| [] => (None, Some ErrNoCodecs)
| _ :: _ => decode_loop name value codecs []
end.

End Methods.

(** The system's random source ([crypto/rand.Reader]) as an endless
    supply of bytes; reading from it does not fail. *)
Definition Entropy := nat -> ascii.

(** [securecookie.GenerateRandomKey] on a random source that delivers.
    (The library returns nil when reading the source fails; [validate]
    does not look for that, and it is not modelled.) *)
Definition GenerateRandomKey (length : nat) (rnd : Entropy)
    : string * Entropy :=
  (bytes.to_string (map rnd (seq 0 length)), fun i => rnd (length + i)%nat).

End securecookie.

(** ** Package [net/http] (external): cookies, requests, responses *)

Module http.

(** [http.SameSite]: an [int]; the four named modes are 1 to 4. *)
Definition SameSite := Z.
Definition SameSiteDefaultMode : SameSite := 1.
Definition SameSiteLaxMode : SameSite := 2.
Definition SameSiteStrictMode : SameSite := 3.
Definition SameSiteNoneMode : SameSite := 4.

(** A [Set-Cookie] header as written by [http.SetCookie]. *)
Record Cookie : Type := {
  Name : string;
  Value : string;
  Path : string;
  Domain : string;
  MaxAge : Z;
  Secure : bool;
  HttpOnly : bool;
  SameSiteAttr : SameSite
}.

(** The [http.ResponseWriter]: the [Set-Cookie] headers added so far. *)
Definition ResponseWriter := list Cookie.

(** The token characters of RFC 7230 (the [isTokenTable] of
    [net/http]). A byte above 127 is part of no token. *)
Definition isToken (c : ascii) : bool :=
  let n := N_of_ascii c in
  ((48 <=? n) && (n <=? 57) || (65 <=? n) && (n <=? 90) ||
   (97 <=? n) && (n <=? 122) ||
   existsb (N.eqb n) [33; 35; 36; 37; 38; 39; 42; 43; 45; 46; 94; 95; 96;
                      124; 126])%N.

(** [isCookieNameValid]: not empty, and token characters only.
    (gorilla/sessions carries its own copy, which its registry applies to
    the session name.) *)
Definition isCookieNameValid (raw : string) : bool :=
  match raw with
  | EmptyString => false
  | _ => forallb isToken (bytes.of_string raw)
  end.

End http.

(** ** Package [sessions] (gorilla, external): sessions, registry, store *)

Module sessions.

(** [sessions.Options] *)
Record Options : Type := {
  Path : string;
  Domain : string;
  MaxAge : Z;
  Secure : bool;
  HttpOnly : bool;
  SameSite : http.SameSite
}.

(** [sessions.CookieStore]. *)
Record CookieStore : Type := {
  Codecs : list securecookie.SecureCookie;
  store_Options : Options
}.

(** [sessions.Session].  [store] is the [Store] interface value; this
    package only ever puts a [*CookieStore] in it, [None] being the nil
    pointer. *)
Record Session : Type := {
  ID : string;
  Values : gmap Dyn Dyn;
  Opts : Options;
  IsNew : bool;
  store : option CookieStore;
  name : string
}.

Definition set_Values (v : gmap Dyn Dyn) (s : Session) : Session :=
  {| ID := ID s; Values := v; Opts := Opts s; IsNew := IsNew s;
     store := store s; name := name s |}.
Definition set_Opts (o : Options) (s : Session) : Session :=
  {| ID := ID s; Values := Values s; Opts := o; IsNew := IsNew s;
     store := store s; name := name s |}.
Definition set_IsNew (b : bool) (s : Session) : Session :=
  {| ID := ID s; Values := Values s; Opts := Opts s; IsNew := b;
     store := store s; name := name s |}.
Definition set_store (st : option CookieStore) (s : Session) : Session :=
  {| ID := ID s; Values := Values s; Opts := Opts s; IsNew := IsNew s;
     store := st; name := name s |}.
Definition set_name (n : string) (s : Session) : Session :=
  {| ID := ID s; Values := Values s; Opts := Opts s; IsNew := IsNew s;
     store := store s; name := n |}.
Definition set_MaxAge (n : Z) (o : Options) : Options :=
  {| Path := Path o; Domain := Domain o; MaxAge := n; Secure := Secure o;
     HttpOnly := HttpOnly o; SameSite := SameSite o |}.

(** What this package uses of an [*http.Request]: the cookies the client
    sent, and the [Registry] that gorilla keeps in the request's context,
    which maps a session name to the session loaded for it and the error
    of that load.  A [*Session] handed out by the registry points at the
    registry's entry: a write through it is a write to the entry (see
    [commit]). *)
Record Request : Type := {
  Cookies : list (string * string);
  registry : gmap string (Session * option error)
}.

Definition set_registry (reg : gmap string (Session * option error))
    (r : Request) : Request :=
  {| Cookies := Cookies r; registry := reg |}.

(** A write through the [*Session] that the registry handed out for
    [key]: the entry for [key] now holds the session as written. *)
Definition commit (key : string) (s : Session) (r : Request) : Request :=
  match registry r !! key with
  | Some (_, e) => set_registry (<[key := (s, e)]> (registry r)) r
  | None => r
  end.

(** [r.Cookie(name)]: the value of the first cookie of that name. *)
Fixpoint Cookie (cookies : list (string * string)) (name : string)
    : option string :=
  match cookies with
  | [] => None
  | (n, v) :: rest => if String.eqb n name then Some v else Cookie rest name
  end.

(** [NewCookieStore] *)
Definition NewCookieStore (keyPairs : list string) : CookieStore :=
  {| Codecs := securecookie.CodecsFromPairs keyPairs;
     store_Options := {| Path := "/"; Domain := ""; MaxAge := 86400 * 30;
                         Secure := false; HttpOnly := false;
                         SameSite := 0 |} |}.

(** [sessions.NewCookie] *)
Definition NewCookie (name value : string) (o : Options) : http.Cookie :=
  {| http.Name := name; http.Value := value; http.Path := Path o;
     http.Domain := Domain o; http.MaxAge := MaxAge o;
     http.Secure := Secure o; http.HttpOnly := HttpOnly o;
     http.SameSiteAttr := SameSite o |}.

Section Methods.

Variable Encode :
securecookie.SecureCookie -> string -> gmap Dyn Dyn -> string + string.
Variable Decode :
securecookie.SecureCookie -> string -> string -> gmap Dyn Dyn + string.

(** [CookieStore.New]. The receiver is dereferenced for its options
before anything else. *)
Definition CookieStore_New (s : option CookieStore) (r : Request)
(name : string) : Res (Session * option error) :=
match s with
| None => Panic nil_dereference
| Some cs =>
  let session :=
    {| ID := ""; Values := ∅; Opts := store_Options cs; IsNew := true;
       store := s; name := name |} in
  match Cookie (Cookies r) name with
  | Some value =>
      match securecookie.DecodeMulti Decode name value (Codecs cs) with
      | (Some dst, None) =>
          Ret (set_IsNew false (set_Values dst session), None)
      | (Some dst, Some err) => Ret (set_Values dst session, Some err)
      | (None, None) => Ret (set_IsNew false session, None)
      | (None, Some err) => Ret (session, Some err)
      end
  | None => Ret (session, None)
  end
end.

(** [Registry.Get] on the registry of [r]. *)
Definition Registry_Get (st : option CookieStore) (name : string)
(r : Request) : Res (option Session * option error * Request) :=
if negb (http.isCookieNameValid name) then
Ret (None, Some (ErrCookieName name), r)
else
match registry r !! name with
| Some (s, e) =>
    let s := set_store st s in
    Ret (Some s, e, set_registry (<[name := (s, e)]> (registry r)) r)
| None =>
    '(s, e) ← CookieStore_New st r name;
    let s := set_store st (set_name name s) in
    Ret (Some s, e, set_registry (<[name := (s, e)]> (registry r)) r)
end.

(** [CookieStore.Get]: calling it on a nil receiver is no fault by
itself, the receiver is only passed on. *)
Definition CookieStore_Get (st : option CookieStore) (r : Request)
(name : string) : Res (option Session * option error * Request) :=
Registry_Get st name r.

(** [CookieStore.Save] *)
Definition CookieStore_Save (st : option CookieStore)
(w : http.ResponseWriter) (session : Session)
: Res (option error * http.ResponseWriter) :=
match st with
| None => Panic nil_dereference
| Some cs =>
  match securecookie.EncodeMulti Encode (name session) (Values session)
          (Codecs cs) with
  | (_, Some err) => Ret (Some err, w)
  | (encoded, None) =>
      Ret (None, w ++ [NewCookie (name session) encoded (Opts session)])
  end
end.

(** [Session.Save]: [s.store.Save(r, w, s)]. *)
Definition Save (s : Session) (w : http.ResponseWriter)
: Res (option error * http.ResponseWriter) :=
CookieStore_Save (store s) w s.

End Methods.

End sessions.

(** ** Package [strconv] (external): base-10 integers *)

Module strconv.

Definition uint64 (z : Z) : Z := z mod 2 ^ 64.
Definition int64 (z : Z) : Z := (z + 2 ^ 63) mod 2 ^ 64 - 2 ^ 63.

Definition maxUint64 : Z := 2 ^ 64 - 1.

(** The value of a decimal digit. *)
Definition digit (c : ascii) : option Z :=
  let n := Z.of_N (N_of_ascii c) in
  if (48 <=? n) && (n <=? 57) then Some (n - 48) else None.

Definition digit_char (d : Z) : ascii := ascii_of_N (Z.to_N (48 + d)).

(** The digit loop of [formatBits] for base 10, least significant digit
    first, writing right to left into [a].  ([formatBits] writes two
    digits per round from a table; the bytes written are the same.)  The
    buffer of 65 bytes bounds the rounds; 20 digits hold any [uint64]. *)
Fixpoint format_loop (fuel : nat) (u : Z) (a : list ascii) : list ascii :=
  match fuel with
  | O => a
  | S fuel' =>
      let a := digit_char (u mod 10) :: a in
      if u <? 10 then a else format_loop fuel' (u / 10) a
  end.

(** [formatBits(nil, u, 10, neg, false)] *)
Definition formatBits (u : Z) (neg : bool) : string :=
  let u := if neg then uint64 (- u) else u in
  let a := format_loop 20 u [] in
  bytes.to_string (if neg then "-"%char :: a else a).

(** [strconv.FormatInt(i, 10)] *)
Definition FormatInt (i : Z) : string := formatBits (uint64 i) (i <? 0).

(** The loop of [strconv.ParseUint(s, 10, 64)] over the bytes of [s]. *)
Fixpoint ParseUint_loop (s0 : string) (cs : list ascii) (n : Z)
    : Z * option error :=
  match cs with
  | [] => (n, None)
  | c :: rest =>
      match digit c with
      | None => (0, Some (NumErrSyntax "ParseUint" s0))
      | Some d =>
          if n >=? maxUint64 / 10 + 1 then
            (maxUint64, Some (NumErrRange "ParseUint" s0))
          else
            let n := uint64 (n * 10) in
            let n1 := uint64 (n + d) in
            if (n1 <? n) || (n1 >? maxUint64) then
              (maxUint64, Some (NumErrRange "ParseUint" s0))
            else ParseUint_loop s0 rest n1
      end
  end.

(** [strconv.ParseUint(s, 10, 64)] *)
Definition ParseUint (s : list ascii) : Z * option error :=
  match s with
  | [] => (0, Some (NumErrSyntax "ParseUint" (bytes.to_string s)))
  | _ :: _ => ParseUint_loop (bytes.to_string s) s 0
  end.

(** [strconv.ParseInt(s, 10, 64)] *)
Definition ParseInt (s0 : string) : Z * option error :=
  match bytes.of_string s0 with
  | [] => (0, Some (NumErrSyntax "ParseInt" s0))
  | c :: rest =>
      let '(neg, s) :=
        if Ascii.eqb c "+" then (false, rest)
        else if Ascii.eqb c "-" then (true, rest)
        else (false, c :: rest) in
      let '(un, err) := ParseUint s in
      match err with
      | Some (NumErrRange _ _) | None =>
          let cutoff := 2 ^ 63 in
          if negb neg && (un >=? cutoff) then
            (int64 (cutoff - 1), Some (NumErrRange "ParseInt" s0))
          else if neg && (un >? cutoff) then
            (int64 (- cutoff), Some (NumErrRange "ParseInt" s0))
          else
            let n := int64 un in
            (if neg then int64 (- n) else n, None)
      | Some _ => (0, Some (NumErrSyntax "ParseInt" s0))
      end
  end.

End strconv.

(** The integer a decimal numeral denotes, with no bound on its size:
    an optional sign, then one or more decimal digits. *)
Fixpoint decimal_digits (cs : list ascii) (acc : Z) : option Z :=
  match cs with
  | [] => Some acc
  | c :: rest =>
      match strconv.digit c with
      | Some d => decimal_digits rest (10 * acc + d)
      | None => None
      end
  end.

Definition decimal_numeral (s : string) : option Z :=
  match bytes.of_string s with
  | [] => None
  | c :: rest =>
      if Ascii.eqb c "+" then
        match rest with [] => None | _ => decimal_digits rest 0 end
      else if Ascii.eqb c "-" then
        match rest with [] => None | _ => Z.opp <$> decimal_digits rest 0 end
      else decimal_digits (c :: rest) 0
  end.

Definition is_int64 (n : Z) : Prop := - 2 ^ 63 <= n < 2 ^ 63.

(** A string that is a base-10 [int64]. *)
Definition base10_int64 (s : string) : Prop :=
  exists n, decimal_numeral s = Some n /\ is_int64 n.

(** ** Package [session] *)

(** [Config].  [store] is the unexported [*sessions.CookieStore]; [None]
    is the nil pointer of a configuration that [Init] has not set up. *)
Record Config : Type := {
  Domain : string;
  Path : string;
  MaxAge : Z;
  HTTPOnly : bool;
  Secure : bool;
  SameSite : http.SameSite;
  CookieName : string;
  AuthKey : string;
  EncryptKey : string;
  store : option sessions.CookieStore
}.

Definition set_Domain (v : string) (c : Config) : Config :=
  {| Domain := v; Path := Path c; MaxAge := MaxAge c; HTTPOnly := HTTPOnly c;
     Secure := Secure c; SameSite := SameSite c; CookieName := CookieName c;
     AuthKey := AuthKey c; EncryptKey := EncryptKey c; store := store c |}.
Definition set_Path (v : string) (c : Config) : Config :=
  {| Domain := Domain c; Path := v; MaxAge := MaxAge c; HTTPOnly := HTTPOnly c;
     Secure := Secure c; SameSite := SameSite c; CookieName := CookieName c;
     AuthKey := AuthKey c; EncryptKey := EncryptKey c; store := store c |}.
Definition set_MaxAge (v : Z) (c : Config) : Config :=
  {| Domain := Domain c; Path := Path c; MaxAge := v; HTTPOnly := HTTPOnly c;
     Secure := Secure c; SameSite := SameSite c; CookieName := CookieName c;
     AuthKey := AuthKey c; EncryptKey := EncryptKey c; store := store c |}.
Definition set_SameSite (v : http.SameSite) (c : Config) : Config :=
  {| Domain := Domain c; Path := Path c; MaxAge := MaxAge c;
     HTTPOnly := HTTPOnly c; Secure := Secure c; SameSite := v;
     CookieName := CookieName c; AuthKey := AuthKey c;
     EncryptKey := EncryptKey c; store := store c |}.
Definition set_CookieName (v : string) (c : Config) : Config :=
  {| Domain := Domain c; Path := Path c; MaxAge := MaxAge c;
     HTTPOnly := HTTPOnly c; Secure := Secure c; SameSite := SameSite c;
     CookieName := v; AuthKey := AuthKey c; EncryptKey := EncryptKey c;
     store := store c |}.
Definition set_AuthKey (v : string) (c : Config) : Config :=
  {| Domain := Domain c; Path := Path c; MaxAge := MaxAge c;
     HTTPOnly := HTTPOnly c; Secure := Secure c; SameSite := SameSite c;
     CookieName := CookieName c; AuthKey := v; EncryptKey := EncryptKey c;
     store := store c |}.
Definition set_EncryptKey (v : string) (c : Config) : Config :=
  {| Domain := Domain c; Path := Path c; MaxAge := MaxAge c;
     HTTPOnly := HTTPOnly c; Secure := Secure c; SameSite := SameSite c;
     CookieName := CookieName c; AuthKey := AuthKey c; EncryptKey := v;
     store := store c |}.
Definition set_store (v : option sessions.CookieStore) (c : Config) : Config :=
  {| Domain := Domain c; Path := Path c; MaxAge := MaxAge c;
     HTTPOnly := HTTPOnly c; Secure := Secure c; SameSite := SameSite c;
     CookieName := CookieName c; AuthKey := AuthKey c;
     EncryptKey := EncryptKey c; store := v |}.

(** [time.Second] and [time.Hour], in nanoseconds. *)
Definition Second : Z := 1000000000.
Definition Hour : Z := 3600 * Second.

Definition defaultDomain : string := ".".
Definition defaultPath : string := "/".
Definition defaultMaxAge : Z := 1 * Hour.
Definition defaultHTTPOnly : bool := true.
Definition defaultSecure : bool := false.
Definition defaultSameSite : http.SameSite := http.SameSiteStrictMode.
Definition defaultCookieName : string := "session".

Definition authKeyLength : nat := 64.
Definition encryptKeyLength : nat := 32.

Definition NewConfig : Config :=
  {| Domain := defaultDomain; Path := defaultPath; MaxAge := defaultMaxAge;
     HTTPOnly := defaultHTTPOnly; Secure := defaultSecure;
     SameSite := defaultSameSite; CookieName := defaultCookieName;
     AuthKey := ""; EncryptKey := ""; store := None |}.

(** [validate].  The configuration is updated in place, so the
    configuration as it stands at the return is part of the result, also
    when an error is returned; so is the random source. *)
Definition validate (rnd : securecookie.Entropy) (c : Config)
    : option error * Config * securecookie.Entropy :=
  let c := if bool_decide (strings.TrimSpace (Domain c) = ""%string)
           then set_Domain defaultDomain c else c in
  let c := if bool_decide (strings.TrimSpace (Path c) = ""%string)
           then set_Path defaultPath c else c in
  if MaxAge c <? 1 * Second then (Some ErrMaxAgeTooShort, c, rnd)
  else
    let c := if (SameSite c <? 1) || (SameSite c >? 4)
             then set_SameSite defaultSameSite c else c in
    let auth :=
      match String.length (AuthKey c) with
      | O =>
          let '(key, rnd) := securecookie.GenerateRandomKey authKeyLength rnd in
          inl (set_AuthKey key c, rnd)
      | n => if Nat.eqb n authKeyLength then inl (c, rnd)
             else inr ErrAuthKeyWrongSize
      end in
    match auth with
    | inr err => (Some err, c, rnd)
    | inl (c, rnd) =>
        match String.length (EncryptKey c) with
        | O =>
            let '(key, rnd) :=
              securecookie.GenerateRandomKey encryptKeyLength rnd in
            (None, set_EncryptKey key c, rnd)
        | n => if Nat.eqb n encryptKeyLength then (None, c, rnd)
               else (Some ErrEncyptKeyWrongSize, c, rnd)
        end
    end.

(** How [validate] leaves a field that may be blank: the default when the
    field was white space only, the field itself otherwise. *)
Definition defaulted (dflt field result : string) : Prop :=
  whitespace_only field /\ result = dflt \/
  ~ whitespace_only field /\ result = field.

(** A configuration that [validate] has nothing to do on. *)
Definition valid (c : Config) : Prop :=
  ~ whitespace_only (Domain c) /\ ~ whitespace_only (Path c) /\
  1 * Second <= MaxAge c /\ 1 <= SameSite c <= 4 /\
  String.length (AuthKey c) = authKeyLength /\
  String.length (EncryptKey c) = encryptKeyLength.

(** The first two steps of [validate], which run on every path. *)
Definition fill_blanks (c : Config) : Config :=
  let c := if bool_decide (strings.TrimSpace (Domain c) = ""%string)
           then set_Domain defaultDomain c else c in
  if bool_decide (strings.TrimSpace (Path c) = ""%string)
  then set_Path defaultPath c else c.

Section Package.

(** The methods of the codecs (see [securecookie]). *)
Variable Encode :
  securecookie.SecureCookie -> string -> gmap Dyn Dyn -> string + string.
Variable Decode :
  securecookie.SecureCookie -> string -> string -> gmap Dyn Dyn + string.

(** [int(d.Seconds())]: the whole seconds of a duration, computed by Go
    through a [float64]. *)
Variable int_Seconds : Z -> Z.

(** [getOptions] *)
Definition getOptions (c : Config) : sessions.Options :=
  {| sessions.Domain := Domain c;
     sessions.Path := Path c;
     sessions.MaxAge := int_Seconds (MaxAge c);
     sessions.HttpOnly := HTTPOnly c;
     sessions.Secure := Secure c;
     sessions.SameSite := SameSite c |}.

(** [Init] *)
Definition Init (rnd : securecookie.Entropy) (c : Config)
    : option error * Config * securecookie.Entropy :=
  match validate rnd c with
  | (Some err, c, rnd) => (Some err, c, rnd)
  | (None, c, rnd) =>
      let cs := sessions.NewCookieStore [AuthKey c; EncryptKey c] in
      let cs := {| sessions.Codecs := sessions.Codecs cs;
                   sessions.store_Options := getOptions c |} in
      (None, set_store (Some cs) c, rnd)
  end.

(** [GetSession] *)
Definition GetSession (c : Config) (r : sessions.Request)
    : Res (option sessions.Session * option error * sessions.Request) :=
  sessions.CookieStore_Get Decode (store c) r (CookieName c).

(** A dereference of the [*sessions.Session] that [GetSession] returned
    with a nil error. *)
Definition deref (s : option sessions.Session) : Res sessions.Session :=
  match s with
  | Some s => Ret s
  | None => Panic nil_dereference
  end.

(** [Destroy] *)
Definition Destroy (c : Config) (w : http.ResponseWriter)
    (r : sessions.Request)
    : Res (option error * sessions.Request * http.ResponseWriter) :=
  '(s, err, r) ← GetSession c r;
  match err with
  | Some _ => Ret (err, r, w)
  | None =>
      s ← deref s;
      let s := sessions.set_Opts (getOptions c) s in
      let s := sessions.set_Opts (sessions.set_MaxAge (-1) (sessions.Opts s)) s in
      let r := sessions.commit (CookieName c) s r in
      '(err, w) ← sessions.Save Encode s w;
      Ret (err, r, w)
  end.

(** [Extend] *)
Definition Extend (c : Config) (w : http.ResponseWriter)
    (r : sessions.Request)
    : Res (option error * sessions.Request * http.ResponseWriter) :=
  '(s, err, r) ← GetSession c r;
  match err with
  | Some _ => Ret (err, r, w)
  | None =>
      s ← deref s;
      let s := sessions.set_Opts (getOptions c) s in
      let r := sessions.commit (CookieName c) s r in
      '(err, w) ← sessions.Save Encode s w;
      Ret (err, r, w)
  end.

(** [AddValue] *)
Definition AddValue (c : Config) (w : http.ResponseWriter)
    (r : sessions.Request) (key value : string)
    : Res (option error * sessions.Request * http.ResponseWriter) :=
  '(s, err, r) ← GetSession c r;
  match err with
  | Some _ => Ret (err, r, w)
  | None =>
      s ← deref s;
      let s := sessions.set_Values
                 (<[DStr key := DStr value]> (sessions.Values s)) s in
      let r := sessions.commit (CookieName c) s r in
      '(err, w) ← sessions.Save Encode s w;
      Ret (err, r, w)
  end.

(** [GetValue] *)
Definition GetValue (c : Config) (r : sessions.Request) (key : string)
    : Res (string * option error * sessions.Request) :=
  '(s, err, r) ← GetSession c r;
  match err with
  | Some _ => Ret (""%string, err, r)
  | None =>
      s ← deref s;
      match as_string (sessions.Values s !! DStr key) with
      | Some value => Ret (value, None, r)
      | None => Ret (""%string, Some ErrKeyNotFound, r)
      end
  end.

(** The [range] loop of [GetAllValues]: both type assertions are of the
    one-result form, which panics on another dynamic type. *)
Fixpoint convert_entries (entries : list (Dyn * Dyn))
    (kv : gmap string string) : Res (gmap string string) :=
  match entries with
  | [] => Ret kv
  | (DStr ks, DStr vs) :: rest => convert_entries rest (<[ks := vs]> kv)
  | _ :: _ => Panic "interface conversion: interface {} is not string"
  end.

(** [GetAllValues].  The nil map of the error return reads as the empty
    map. *)
Definition GetAllValues (c : Config) (r : sessions.Request)
    : Res (gmap string string * option error * sessions.Request) :=
  '(s, err, r) ← GetSession c r;
  match err with
  | Some _ => Ret (∅, err, r)
  | None =>
      s ← deref s;
      kv ← convert_entries (map_to_list (sessions.Values s)) ∅;
      Ret (kv, None, r)
  end.

(** The steps the specification gives for both [Extend] and [Destroy]:
    obtain the session, derive the cookie options from the configuration,
    apply [override] to them, save. *)
Definition save_with_options (override : sessions.Options -> sessions.Options)
    (c : Config) (w : http.ResponseWriter) (r : sessions.Request)
    : Res (option error * sessions.Request * http.ResponseWriter) :=
  '(s, err, r) ← GetSession c r;
  match err with
  | Some _ => Ret (err, r, w)
  | None =>
      s ← deref s;
      let s := sessions.set_Opts (override (getOptions c)) s in
      let r := sessions.commit (CookieName c) s r in
      '(err, w) ← sessions.Save Encode s w;
      Ret (err, r, w)
  end.

(** *** Typical fields (session_typical.go) *)

Definition keyUsername : string := "username".
Definition keyUserID : string := "user_id".
Definition keyToken : string := "token".
Definition keySessionID : string := "session_id".

Definition AddUsername c w r (value : string) :=
  AddValue c w r keyUsername value.
Definition GetUsername c r := GetValue c r keyUsername.

(** [AddUserID] *)
Definition AddUserID (c : Config) (w : http.ResponseWriter)
    (r : sessions.Request) (value : Z)
    : Res (option error * sessions.Request * http.ResponseWriter) :=
  AddValue c w r keyUserID (strconv.FormatInt value).

(** [GetUserID] *)
Definition GetUserID (c : Config) (r : sessions.Request)
    : Res (Z * option error * sessions.Request) :=
  '(valStr, err, r) ← GetValue c r keyUserID;
  match err with
  | Some _ => Ret (0, err, r)
  | None =>
      let '(value, err) := strconv.ParseInt valStr in
      Ret (value, err, r)
  end.

Definition AddToken c w r (value : string) := AddValue c w r keyToken value.
Definition GetToken c r := GetValue c r keyToken.

(** [AddSessionID] *)
Definition AddSessionID (c : Config) (w : http.ResponseWriter)
    (r : sessions.Request) (value : Z)
    : Res (option error * sessions.Request * http.ResponseWriter) :=
  AddValue c w r keySessionID (strconv.FormatInt value).

(** [GetSessionID] *)
Definition GetSessionID (c : Config) (r : sessions.Request)
    : Res (Z * option error * sessions.Request) :=
  '(valStr, err, r) ← GetValue c r keySessionID;
  match err with
  | Some _ => Ret (0, err, r)
  | None =>
      let '(value, err) := strconv.ParseInt valStr in
      Ret (value, err, r)
  end.

End Package.

(** ** Predicates of the specification *)

(** Every entry has a string key and a string value. *)
Definition all_strings (m : gmap Dyn Dyn) : Prop :=
  forall k v, m !! k = Some v -> exists ks vs, k = DStr ks /\ v = DStr vs.

(** What [GetSession] returns on the first access of a request, for a
    configuration whose store is set up and whose cookie name is valid. *)
Definition first_access
    (Decode : securecookie.SecureCookie -> string -> string ->
              gmap Dyn Dyn + string)
    (c : Config) (cs : sessions.CookieStore)
    (r : sessions.Request)
    (out : Res (option sessions.Session * option error * sessions.Request))
    : Prop :=
  exists s err,
    out = Ret (Some s, err,
               sessions.set_registry
                 (<[CookieName c := (s, err)]> (sessions.registry r)) r) /\
    match sessions.Cookie (sessions.Cookies r) (CookieName c) with
    | None =>
        err = None /\ sessions.IsNew s = true /\ sessions.Values s = ∅
    | Some value =>
        match securecookie.DecodeMulti Decode (CookieName c) value
                (sessions.Codecs cs) with
        | (Some dst, None) =>
            err = None /\ sessions.IsNew s = false /\
            sessions.Values s = dst
        | (_, e) =>
            err = e /\ e <> None /\ sessions.IsNew s = true /\
            sessions.Values s = ∅
        end
    end.

(** ** Collaborators for the examples *)

(** Codec methods given by a finite table of sealed tokens: a token unseals
    to the values it is listed with, any other token fails verification, and
    values that are not listed cannot be sealed. *)
Definition example_table : list (string * gmap Dyn Dyn) :=
  [ ("t-empty"%string, ∅);
    ("t-kv"%string, {[ DStr "key" := DStr "value" ]});
    ("t-42"%string, {[ DStr "user_id" := DStr "42" ]});
    ("t-abc"%string, {[ DStr "user_id" := DStr "abc" ]});
    ("t-int"%string, {[ DStr "key" := DInt 7 ]}) ].

Definition example_Encode (codec : securecookie.SecureCookie) (name : string)
    (value : gmap Dyn Dyn) : string + string :=
  match find (fun e => bool_decide (e.2 = value)) example_table with
  | Some e => inl e.1
  | None => inr "securecookie: the value is too long"%string
  end.

Definition example_Decode (codec : securecookie.SecureCookie)
    (name token : string) : gmap Dyn Dyn + string :=
  match find (fun e => String.eqb e.1 token) example_table with
  | Some e => inl e.2
  | None => inr "securecookie: the value is not valid"%string
  end.

(** Whole seconds by truncation. *)
Definition example_Seconds (d : Z) : Z := Z.quot d Second.

(** A random source that delivers the letters a, b, c, ... in turn. *)
Definition example_rnd : securecookie.Entropy :=
  fun i => ascii_of_nat (97 + i mod 26).

(** A request without cookies, and one whose session cookie was tampered
    with. *)
Definition request_plain : sessions.Request :=
  {| sessions.Cookies := []; sessions.registry := ∅ |}.
Definition request_tampered : sessions.Request :=
  {| sessions.Cookies := [("session"%string, "t-kw"%string)];
     sessions.registry := ∅ |}.
Definition request_kv : sessions.Request :=
  {| sessions.Cookies := [("session"%string, "t-kv"%string)];
     sessions.registry := ∅ |}.

(** The default configuration after a successful [Init]. *)
Definition example_config : Config :=
  (Init example_Seconds example_rnd NewConfig).1.2.

Definition request_abc : sessions.Request :=
  {| sessions.Cookies := [("session"%string, "t-abc"%string)];
     sessions.registry := ∅ |}.

(** A request whose session cookie holds an integer. *)
Definition request_int : sessions.Request :=
  {| sessions.Cookies := [("session"%string, "t-int"%string)];
     sessions.registry := ∅ |}.

(** [request_kv] after [example_config] has loaded its session. *)
Definition request_loaded : sessions.Request :=
  match GetSession example_Decode example_config request_kv with
  | Ret (_, r) => r
  | Panic _ => request_kv
  end.

(** The store of [example_config]. *)
Definition example_store : sessions.CookieStore :=
  {| sessions.Codecs :=
       [securecookie.New (AuthKey example_config) (EncryptKey example_config)];
     sessions.store_Options := getOptions example_Seconds example_config |}.

(** ** The package-level configuration

    The package keeps one [Config] in its variable [config].  The functions
    of [pkg] are the package-level ones: they take the value of [config], and
    return the new one when they assign to it. *)

Definition set_HTTPOnly (v : bool) (c : Config) : Config :=
  {| Domain := Domain c; Path := Path c; MaxAge := MaxAge c; HTTPOnly := v;
     Secure := Secure c; SameSite := SameSite c; CookieName := CookieName c;
     AuthKey := AuthKey c; EncryptKey := EncryptKey c; store := store c |}.
Definition set_Secure (v : bool) (c : Config) : Config :=
  {| Domain := Domain c; Path := Path c; MaxAge := MaxAge c;
     HTTPOnly := HTTPOnly c; Secure := v; SameSite := SameSite c;
     CookieName := CookieName c; AuthKey := AuthKey c;
     EncryptKey := EncryptKey c; store := store c |}.

Module pkg.

(** The zero value of [var config Config]. *)
Definition zero : Config :=
  {| Domain := ""; Path := ""; MaxAge := 0; HTTPOnly := false;
     Secure := false; SameSite := 0; CookieName := ""; AuthKey := "";
     EncryptKey := ""; store := None |}.

(** [DefaultConfig]: [config = *NewConfig()]. *)
Definition DefaultConfig (config : Config) : Config := NewConfig.

(** The package-level [Init]: [config.Init()]. *)
Definition Init (int_Seconds : Z -> Z) (rnd : securecookie.Entropy)
    (config : Config) : option error * Config * securecookie.Entropy :=
  Init int_Seconds rnd config.

(** The setters. *)
Definition Secure (yes : bool) (config : Config) : Config :=
  set_Secure yes config.
Definition HTTPOnly (yes : bool) (config : Config) : Config :=
  set_HTTPOnly yes config.
Definition Domain (domain : string) (config : Config) : Config :=
  set_Domain domain config.
Definition Path (path : string) (config : Config) : Config :=
  set_Path path config.
Definition MaxAge (maxAge : Z) (config : Config) : Config :=
  set_MaxAge maxAge config.
Definition Keys (authKey encryptkey : string) (config : Config) : Config :=
  set_EncryptKey encryptkey (set_AuthKey authKey config).
Definition CookieName (cookieName : string) (config : Config) : Config :=
  set_CookieName cookieName config.
Definition SameSite (sameSite : http.SameSite) (config : Config) : Config :=
  set_SameSite sameSite config.

End pkg.

(** The set-up the package describes as typical: [DefaultConfig], then the
    setters, then [Init]; the keys are left to [Init]. *)
Definition configure (domain path : string) (maxAge : Z)
    (secure httpOnly : bool) (sameSite : http.SameSite) (cookieName : string)
    (config : Config) : Config :=
  pkg.CookieName cookieName
    (pkg.SameSite sameSite
       (pkg.HTTPOnly httpOnly
          (pkg.Secure secure
             (pkg.MaxAge maxAge (pkg.Path path (pkg.Domain domain config)))))).

(** ** Views of the package used in the properties *)

(** The binding [Init] makes for a configuration: a codec of the
    configuration's two keys, and the options derived from its fields. *)
Definition binding (int_Seconds : Z -> Z) (c : Config) : sessions.CookieStore :=
  {| sessions.Codecs := [securecookie.New (AuthKey c) (EncryptKey c)];
     sessions.store_Options := getOptions int_Seconds c |}.

(** What a call returned, without the request it leaves behind. *)
Definition answer {A : Type} (out : Res (A * sessions.Request)) : Res A :=
  match out with
  | Ret (a, _) => Ret a
  | Panic msg => Panic msg
  end.

(** The number an out-of-range numeral is clamped to. *)
Definition clamp_int64 (n : Z) : Z :=
  if n <? - 2 ^ 63 then - 2 ^ 63
  else if 2 ^ 63 <=? n then 2 ^ 63 - 1 else n.

(** What [GetUserID] and [GetSessionID] make of the answer of [GetValue]. *)
Definition parse_answer (a : Res (string * option error))
    : Res (Z * option error) :=
  match a with
  | Ret (valStr, None) => Ret (strconv.ParseInt valStr)
  | Ret (_, Some e) => Ret (0, Some e)
  | Panic msg => Panic msg
  end.

(** The shape [AddValue], [Extend] and [Destroy] share: load the session,
    return the error of the load if there is one, else write to the session
    through its pointer and save it. *)
Definition write_and_save
    (Encode : securecookie.SecureCookie -> string -> gmap Dyn Dyn ->
              string + string)
    (Decode : securecookie.SecureCookie -> string -> string ->
              gmap Dyn Dyn + string)
    (write : sessions.Session -> sessions.Session)
    (c : Config) (w : http.ResponseWriter) (r : sessions.Request)
    : Res (option error * sessions.Request * http.ResponseWriter) :=
  '(s, err, r) ← GetSession Decode c r;
  match err with
  | Some _ => Ret (err, r, w)
  | None =>
      s ← deref s;
      let s := write s in
      let r := sessions.commit (CookieName c) s r in
      '(err, w) ← sessions.Save Encode s w;
      Ret (err, r, w)
  end.

(** A codec method that seals every value. *)
Definition sealing_Encode (codec : securecookie.SecureCookie) (name : string)
    (value : gmap Dyn Dyn) : string + string :=
  inl "t-sealed"%string.

(** * Properties *)

(** ** Trimming white space *)

Module bytes_facts.
Import bytes.

Lemma cut_prefix_app (p rest : t) : cut_prefix p (p ++ rest) = Some rest.
Proof.
  induction p as [|a p IH]; simpl; [reflexivity|].
  rewrite Ascii.eqb_refl. exact IH.
Qed.

Lemma cut_prefix_Some (p s rest : t) :
  cut_prefix p s = Some rest -> s = p ++ rest.
Proof.
  revert s. induction p as [|a p IH]; intros s H; simpl in H.
  - injection H as ->. reflexivity.
  - destruct s as [|b s]; [discriminate|].
    destruct (Ascii.eqb a b) eqn:E; [|discriminate].
    apply Ascii.eqb_eq in E. subst b. simpl. f_equal. apply IH, H.
Qed.

Lemma cut_any_Some (pats : list t) (s rest : t) :
  cut_any pats s = Some rest -> exists p, In p pats /\ s = p ++ rest.
Proof.
  induction pats as [|q pats IH]; simpl; [discriminate|].
  destruct (cut_prefix q s) as [r|] eqn:E.
  - intros [= <-]. exists q. split; [now left|]. now apply cut_prefix_Some.
  - intros H. destruct (IH H) as (p & Hp & ->). exists p. split; [now right|reflexivity].
Qed.

Lemma cut_any_found (pats : list t) (p x : t) :
  In p pats -> exists rest, cut_any pats (p ++ x) = Some rest.
Proof.
  induction pats as [|q pats IH]; simpl; [tauto|].
  intros [->|Hin].
  - rewrite cut_prefix_app. eauto.
  - destruct (cut_prefix q (p ++ x)); eauto.
Qed.

(** No pattern starts another one. *)
Definition prefix_free (pats : list t) : Prop :=
  forall p q x y, In p pats -> In q pats -> p ++ x = q ++ y -> p = q.

Definition prefix_freeb (pats : list t) : bool :=
  forallb (fun p => forallb (fun q =>
    match cut_prefix p q with
    | Some _ => bool_decide (p = q)
    | None => true
    end) pats) pats.

Lemma prefix_freeb_sound (pats : list t) :
  prefix_freeb pats = true -> prefix_free pats.
Proof.
  unfold prefix_freeb. rewrite forallb_forall. intros H p q x y Hp Hq E.
  assert (Hpq := H p Hp). rewrite forallb_forall in Hpq. specialize (Hpq q Hq).
  assert (Hqp := H q Hq). rewrite forallb_forall in Hqp. specialize (Hqp p Hp).
  apply app_eq_app in E. destruct E as [l [[-> _]|[-> _]]].
  - rewrite cut_prefix_app in Hqp. apply bool_decide_eq_true in Hqp. auto.
  - rewrite cut_prefix_app in Hpq. now apply bool_decide_eq_true in Hpq.
Qed.

Lemma cut_any_app (pats : list t) (p x : t) :
  prefix_free pats -> In p pats -> cut_any pats (p ++ x) = Some x.
Proof.
  intros Hfree Hin. destruct (cut_any_found pats p x Hin) as [rest E].
  rewrite E. destruct (cut_any_Some _ _ _ E) as (q & Hq & Eq).
  assert (p = q) by (eapply Hfree; eauto). subst q.
  apply app_inv_head in Eq. now subst.
Qed.

(** What [trim_left] removed is a run of patterns. *)
Lemma trim_left_split (pats : list t) (fuel : nat) (s : t) :
  exists l, Forall (fun p => In p pats) l /\
            s = concat l ++ trim_left pats fuel s.
Proof.
  revert s. induction fuel as [|fuel IH]; intros s; simpl.
  - exists []. split; [constructor|reflexivity].
  - destruct s as [|a s]; [exists []; split; [constructor|reflexivity]|].
    destruct (cut_any pats (a :: s)) as [rest|] eqn:E.
    + destruct (cut_any_Some _ _ _ E) as (p & Hp & Es).
      destruct (IH rest) as (l & Hl & El).
      exists (p :: l). split; [now constructor|].
      simpl. rewrite <- app_assoc, <- El. exact Es.
    + exists []. split; [constructor|reflexivity].
Qed.

(** A run of patterns is removed whole, given fuel for every byte. *)
Lemma trim_left_all (pats : list t) (l : list t) :
  prefix_free pats -> Forall (fun p => p <> []) pats ->
  Forall (fun p => In p pats) l ->
  forall fuel, (List.length (concat l) <= fuel)%nat ->
               trim_left pats fuel (concat l) = [].
Proof.
  intros Hfree Hne Hl. induction Hl as [|p l Hp Hl IH]; intros fuel Hfuel.
  - destruct fuel; reflexivity.
  - assert (p <> []) as Hp0 by (rewrite List.Forall_forall in Hne; apply Hne, Hp).
    simpl concat in *. rewrite length_app in Hfuel.
    destruct p as [|a p]; [congruence|].
    destruct fuel as [|fuel]; simpl in Hfuel; [lia|].
    change (trim_left pats (S fuel) ((a :: p) ++ concat l))
      with (match cut_any pats ((a :: p) ++ concat l) with
            | Some rest => trim_left pats fuel rest
            | None => (a :: p) ++ concat l
            end).
    rewrite (cut_any_app pats (a :: p) (concat l) Hfree Hp).
    apply IH. lia.
Qed.

Lemma rev_concat (l : list t) : rev (concat l) = concat (rev (map (@rev ascii) l)).
Proof.
  induction l as [|p l IH]; simpl; [reflexivity|].
  rewrite rev_app_distr, IH, concat_app. simpl. now rewrite app_nil_r.
Qed.

End bytes_facts.

Lemma to_string_of_string (s : string) : bytes.to_string (bytes.of_string s) = s.
Proof. apply string_of_list_ascii_of_string. Qed.

Lemma of_string_to_string (l : bytes.t) : bytes.of_string (bytes.to_string l) = l.
Proof. apply list_ascii_of_string_of_list_ascii. Qed.

Lemma to_string_empty (l : bytes.t) : bytes.to_string l = ""%string -> l = [].
Proof. intros H. rewrite <- (of_string_to_string l), H. reflexivity. Qed.

Lemma space_runes_prefix_free : bytes_facts.prefix_free unicode.space_runes.
Proof. apply bytes_facts.prefix_freeb_sound. vm_compute. reflexivity. Qed.

Lemma space_runes_nonempty : Forall (fun p => p <> []) unicode.space_runes.
Proof. unfold unicode.space_runes. repeat constructor; discriminate. Qed.

(** [strings.TrimSpace] returns the empty string exactly on the strings
    made of white space only. *)
Lemma TrimSpace_empty_iff (s : string) :
  strings.TrimSpace s = ""%string <-> whitespace_only s.
Proof.
  unfold strings.TrimSpace, whitespace_only. split.
  - intros H. apply to_string_empty in H. unfold strings.TrimRightSpace in H.
    set (t := strings.TrimLeftSpace (bytes.of_string s)) in *.
    apply (f_equal (@rev ascii)) in H. rewrite rev_involutive in H.
    change (@rev ascii []) with (@nil ascii) in H.
    destruct (bytes_facts.trim_left_split (map (@rev ascii) unicode.space_runes)
                (List.length t) (rev t)) as (l2 & Hl2 & E2).
    rewrite H, app_nil_r in E2.
    apply (f_equal (@rev ascii)) in E2. rewrite rev_involutive in E2.
    rewrite bytes_facts.rev_concat in E2.
    destruct (bytes_facts.trim_left_split unicode.space_runes
                (List.length (bytes.of_string s)) (bytes.of_string s))
      as (l1 & Hl1 & E1).
    fold (strings.TrimLeftSpace (bytes.of_string s)) in E1. fold t in E1.
    exists (l1 ++ rev (map (@rev ascii) l2)). split.
    + apply List.Forall_app. split; [exact Hl1|].
      apply List.Forall_forall. intros p Hp. apply in_rev in Hp.
      apply in_map_iff in Hp. destruct Hp as (q & <- & Hq).
      rewrite List.Forall_forall in Hl2. specialize (Hl2 q Hq).
      apply in_map_iff in Hl2. destruct Hl2 as (p0 & <- & Hp0).
      now rewrite rev_involutive.
    + rewrite concat_app, <- E2. exact E1.
  - intros (l & Hl & E). rewrite E. unfold strings.TrimLeftSpace.
    rewrite (bytes_facts.trim_left_all _ l space_runes_prefix_free
               space_runes_nonempty Hl);
      [reflexivity|lia].
Qed.

(** ** Validation of a configuration *)

Lemma to_string_length (l : bytes.t) :
  String.length (bytes.to_string l) = List.length l.
Proof. induction l as [|a l IH]; simpl; [reflexivity|now rewrite IH]. Qed.

Lemma GenerateRandomKey_length (n : nat) (rnd : securecookie.Entropy) :
  String.length (securecookie.GenerateRandomKey n rnd).1 = n.
Proof.
  unfold securecookie.GenerateRandomKey. simpl.
  now rewrite to_string_length, length_map, length_seq.
Qed.

Lemma defaulted_intro (dflt s : string) :
  defaulted dflt s
    (if bool_decide (strings.TrimSpace s = ""%string) then dflt else s).
Proof.
  unfold defaulted. case_bool_decide as H.
  - left. split; [now apply TrimSpace_empty_iff|reflexivity].
  - right. split; [now rewrite <- TrimSpace_empty_iff|reflexivity].
Qed.

#[global] Arguments strings.TrimSpace : simpl never.
#[global] Arguments securecookie.GenerateRandomKey : simpl never.

(** Reduce the projections of a configuration that is written out. *)
Ltac proj_simpl :=
  cbn [Domain Path MaxAge HTTPOnly Secure SameSite CookieName AuthKey
       EncryptKey store set_Domain set_Path set_MaxAge set_SameSite
       set_CookieName set_AuthKey set_EncryptKey set_store fst snd] in *.

Lemma fill_blanks_fields (c : Config) :
  fill_blanks c =
    set_Path (if bool_decide (strings.TrimSpace (Path c) = ""%string)
              then defaultPath else Path c)
      (set_Domain (if bool_decide (strings.TrimSpace (Domain c) = ""%string)
                   then defaultDomain else Domain c) c).
Proof.
  unfold fill_blanks. destruct c as [d p m h s ss n a e st]. proj_simpl.
  destruct (bool_decide (strings.TrimSpace d = ""%string)); proj_simpl;
    destruct (bool_decide (strings.TrimSpace p = ""%string)); reflexivity.
Qed.

(** Walk through the branches of [validate] on a configuration that is
    written out, innermost condition first. *)
Ltac validate_step :=
  match goal with
  | |- context [bool_decide (strings.TrimSpace ?d = _)] =>
      is_var d; destruct (bool_decide (strings.TrimSpace d = ""%string)) eqn:?
  | |- context [?m <? 1 * Second] =>
      is_var m; destruct (m <? 1 * Second) eqn:?
  | |- context [(?ss <? 1) || (?ss >? 4)] =>
      is_var ss; destruct ((ss <? 1) || (ss >? 4)) eqn:?
  | |- context [String.length ?a] =>
      is_var a; destruct (String.length a) as [|?] eqn:?
  | |- context [securecookie.GenerateRandomKey ?n ?r] =>
      destruct (securecookie.GenerateRandomKey n r) as [? ?] eqn:?
  | |- context [Nat.eqb (S ?x) ?y] =>
      is_var x; destruct (Nat.eqb (S x) y) eqn:?
  end; proj_simpl.

Ltac validate_cases := unfold validate; proj_simpl; repeat validate_step.

(** The key steps of [validate] change neither [Domain] nor [Path] nor
    [MaxAge]; the steps before them are [fill_blanks]. *)
Lemma validate_early_fields (rnd : securecookie.Entropy) (c : Config) :
  let c' := (validate rnd c).1.2 in
  Domain c' = Domain (fill_blanks c) /\ Path c' = Path (fill_blanks c) /\
  MaxAge c' = MaxAge c /\ HTTPOnly c' = HTTPOnly c /\ Secure c' = Secure c /\
  CookieName c' = CookieName c /\ store c' = store c.
Proof.
  unfold fill_blanks.
  destruct c as [d p m h s ss n a e st]. validate_cases; auto 10.
Qed.

(** C6: a [Domain] ([Path]) that is empty or white space only is replaced
    by "." ("/") by [validate]; one with a character that is no white space
    is left as it is.  This holds on every path through [validate], the
    failing ones included. *)
Theorem validate_blank_domain_path (rnd : securecookie.Entropy) (c : Config) :
  let c' := (validate rnd c).1.2 in
  defaulted "." (Domain c) (Domain c') /\ defaulted "/" (Path c) (Path c').
Proof.
  intros c'. destruct (validate_early_fields rnd c) as (Hd & Hp & _).
  fold c' in Hd, Hp. rewrite Hd, Hp, fill_blanks_fields. proj_simpl. split.
  - apply (defaulted_intro defaultDomain).
  - apply (defaulted_intro defaultPath).
Qed.

(** Turn the recorded outcome of a test of [validate] into a proposition. *)
Ltac reflect_tests :=
  repeat match goal with
  | H : bool_decide _ = true |- _ => apply bool_decide_eq_true in H
  | H : bool_decide _ = false |- _ => apply bool_decide_eq_false in H
  | H : (_ <? _) = true |- _ => apply Z.ltb_lt in H
  | H : (_ <? _) = false |- _ => apply Z.ltb_ge in H
  | H : (_ || _) = false |- _ => apply orb_false_iff in H; destruct H
  | H : (_ >? _) = false |- _ => rewrite Z.gtb_ltb in H
  | H : Nat.eqb _ _ = true |- _ => apply Nat.eqb_eq in H
  | H : Nat.eqb _ _ = false |- _ => apply Nat.eqb_neq in H
  | H : securecookie.GenerateRandomKey ?n ?r = (?k, _) |- _ =>
      let L := fresh "Hlen" in
      assert (L := GenerateRandomKey_length n r);
      rewrite H in L; cbn [fst] in L; clear H
  end.

Lemma default_not_blank :
  ~ whitespace_only defaultDomain /\ ~ whitespace_only defaultPath.
Proof.
  rewrite <- !TrimSpace_empty_iff. split; vm_compute; discriminate.
Qed.

(** A successful [validate] leaves a valid configuration. *)
Lemma validate_ok_valid (rnd rnd' : securecookie.Entropy) (c c' : Config) :
  validate rnd c = (None, c', rnd') -> valid c'.
Proof.
  destruct default_not_blank as [Hd Hp].
  destruct c as [d p m h s ss n a e st]. validate_cases;
    intros [= <- <-]; reflect_tests; unfold valid; proj_simpl;
    rewrite <- ?TrimSpace_empty_iff in *;
    unfold defaultSameSite, http.SameSiteStrictMode;
    repeat split; try assumption; try lia; try congruence.
Qed.

(** [validate] changes nothing on a valid configuration, and does not read
    the random source. *)
Lemma validate_valid (rnd : securecookie.Entropy) (c : Config) :
  valid c -> validate rnd c = (None, c, rnd).
Proof.
  unfold valid. rewrite <- !TrimSpace_empty_iff.
  destruct c as [d p m h s ss n a e st]. proj_simpl.
  intros (Hd & Hp & Hm & Hs & Ha & He).
  validate_cases; reflect_tests; unfold authKeyLength, encryptKeyLength in *;
    try reflexivity; try congruence; try lia.
Qed.

(** C8: [validate] is idempotent.  Once [validate] has succeeded, running it
    again on the resulting configuration succeeds and returns that
    configuration with every field as it was (and consumes no randomness). *)
Theorem validate_idempotent (rnd rnd' : securecookie.Entropy) (c c' : Config)
    (Hok : validate rnd c = (None, c', rnd')) :
  forall rnd2, validate rnd2 c' = (None, c', rnd2).
Proof.
  intros rnd2. apply validate_valid. eapply validate_ok_valid, Hok.
Qed.

(** [validate_idempotent] on the default configuration. *)
Lemma validate_idempotent_witness :
  validate example_rnd NewConfig =
    (None, (validate example_rnd NewConfig).1.2,
     (validate example_rnd NewConfig).2) /\
  validate example_rnd (validate example_rnd NewConfig).1.2 =
    (None, (validate example_rnd NewConfig).1.2, example_rnd).
Proof.
  split; [reflexivity|].
  apply (validate_idempotent example_rnd (validate example_rnd NewConfig).2
           NewConfig).
  reflexivity.
Defined.

(** [validate] on a maximum age below one second: the error, with the two
    blank-field defaults already applied. *)
Lemma validate_short_max_age (rnd : securecookie.Entropy) (c : Config) :
  MaxAge c < 1 * Second ->
  validate rnd c = (Some ErrMaxAgeTooShort, fill_blanks c, rnd).
Proof.
  unfold fill_blanks. destruct c as [d p m h s ss n a e st]. proj_simpl.
  intros Hm. validate_cases; reflect_tests; try reflexivity; lia.
Qed.

(** C2, as the specification states it, fails: on the [ErrMaxAgeTooShort]
    path a blank [Domain] has already been replaced by its default, so the
    configuration is not left as it was. *)
Lemma validate_short_max_age_modifies :
  MaxAge (set_MaxAge 0 (set_Domain "" NewConfig)) < 1 * Second /\
  (validate example_rnd (set_MaxAge 0 (set_Domain "" NewConfig))).1.1 =
    Some ErrMaxAgeTooShort /\
  Domain (set_MaxAge 0 (set_Domain "" NewConfig)) = ""%string /\
  Domain (validate example_rnd (set_MaxAge 0 (set_Domain "" NewConfig))).1.2 =
    "."%string /\
  (validate example_rnd (set_MaxAge 0 (set_Domain "" NewConfig))).1.2 <>
    set_MaxAge 0 (set_Domain "" NewConfig).
Proof.
  rewrite validate_short_max_age by reflexivity.
  split; [reflexivity|]. split; [reflexivity|]. split; [reflexivity|].
  split; [vm_compute; reflexivity|].
  intros H. apply (f_equal Domain) in H. vm_compute in H. discriminate H.
Qed.

(** C2, amended: with a maximum age of one second or more, [validate] leaves
    the maximum age as it is; with less, [validate] fails with
    [ErrMaxAgeTooShort], consumes no randomness, and leaves every field
    other than [Domain] and [Path] as it was, these two being replaced by
    their defaults where they were blank. *)
Theorem validate_max_age (rnd : securecookie.Entropy) (c : Config) :
  (1 * Second <= MaxAge c /\ MaxAge (validate rnd c).1.2 = MaxAge c) \/
  (MaxAge c < 1 * Second /\
   exists d p,
     defaulted "." (Domain c) d /\ defaulted "/" (Path c) p /\
     validate rnd c = (Some ErrMaxAgeTooShort, set_Path p (set_Domain d c), rnd)).
Proof.
  destruct (Z_lt_le_dec (MaxAge c) (1 * Second)) as [Hlt|Hge].
  - right. split; [exact Hlt|].
    rewrite (validate_short_max_age rnd c Hlt), fill_blanks_fields.
    eexists _, _. split; [|split; [|reflexivity]].
    + apply (defaulted_intro defaultDomain).
    + apply (defaulted_intro defaultPath).
  - left. split; [exact Hge|]. apply validate_early_fields.
Qed.

(** C4, amended: the key lengths.  [validate] tests the maximum age first,
    then the authentication key, then the encryption key, and returns at
    the first test that fails.  With a maximum age under one second it
    returns [ErrMaxAgeTooShort] and leaves both keys as they are: no key is
    generated, no key error is returned.  With a maximum age of one second
    or more: an authentication key that is neither empty nor 64 long gives
    [ErrAuthKeyWrongSize], and both keys stay as they are; one of 64 is
    kept; an empty one is replaced by a generated key of 64.  When the
    authentication key is empty or 64 long besides: an encryption key that
    is neither empty nor 32 long gives [ErrEncyptKeyWrongSize] and stays as
    it is; one of 32 is kept; an empty one is replaced by a generated key of
    32. *)
Theorem validate_key_lengths (rnd : securecookie.Entropy) (c : Config) :
  let '(err, c', rnd') := validate rnd c in
  let a := String.length (AuthKey c) in
  let e := String.length (EncryptKey c) in
  (MaxAge c < 1 * Second ->
     err = Some ErrMaxAgeTooShort /\
     AuthKey c' = AuthKey c /\ EncryptKey c' = EncryptKey c /\ rnd' = rnd) /\
  (1 * Second <= MaxAge c ->
     (a <> 0%nat -> a <> 64%nat ->
        err = Some ErrAuthKeyWrongSize /\
        AuthKey c' = AuthKey c /\ EncryptKey c' = EncryptKey c /\
        rnd' = rnd) /\
     (a = 64%nat -> AuthKey c' = AuthKey c) /\
     (a = 0%nat ->
        AuthKey c' = (securecookie.GenerateRandomKey 64 rnd).1 /\
        String.length (AuthKey c') = 64%nat) /\
     (a = 0%nat \/ a = 64%nat ->
        let rnd1 :=
          if Nat.eqb a 0 then (securecookie.GenerateRandomKey 64 rnd).2
          else rnd in
        (e <> 0%nat -> e <> 32%nat ->
           err = Some ErrEncyptKeyWrongSize /\
           EncryptKey c' = EncryptKey c) /\
        (e = 32%nat -> err = None /\ EncryptKey c' = EncryptKey c) /\
        (e = 0%nat ->
           err = None /\
           EncryptKey c' = (securecookie.GenerateRandomKey 32 rnd1).1 /\
           String.length (EncryptKey c') = 32%nat))).
Proof.
  destruct c as [d p m h s ss n a e st]. proj_simpl.
  validate_cases.
  all: repeat match goal with
       | H : securecookie.GenerateRandomKey ?n ?r = (?k, ?r') |- _ =>
           let L := fresh "Hlen" in
           assert (L := GenerateRandomKey_length n r);
           rewrite H in L; cbn [fst] in L;
           replace k with (securecookie.GenerateRandomKey n r).1
             in * by (rewrite H; reflexivity);
           replace r' with (securecookie.GenerateRandomKey n r).2
             in * by (rewrite H; reflexivity);
           clear H
       end.
  all: reflect_tests; unfold authKeyLength, encryptKeyLength in *.
  all: repeat match goal with H : String.length _ = _ |- _ => rewrite H end;
    cbn [Nat.eqb];
    repeat split; intros; try reflexivity; try congruence; try lia;
    try assumption.
Qed.

(** ** Base-10 integers: [strconv.ParseInt] and [strconv.FormatInt] *)

Module strconv_facts.
Import strconv.

Ltac consts :=
  unfold maxUint64, uint64, int64 in *;
  change (2 ^ 64) with 18446744073709551616 in *;
  change (2 ^ 63) with 9223372036854775808 in *;
  change ((18446744073709551616 - 1) / 10 + 1) with 1844674407370955162 in *.

Lemma digit_range (c : ascii) (d : Z) : digit c = Some d -> 0 <= d <= 9.
Proof.
  unfold digit. destruct (_ && _) eqn:E; [|discriminate].
  intros [= <-]. apply andb_true_iff in E. lia.
Qed.

Lemma digit_digit_char (d : Z) : 0 <= d <= 9 -> digit (digit_char d) = Some d.
Proof.
  intros H.
  assert (d = 0 \/ d = 1 \/ d = 2 \/ d = 3 \/ d = 4 \/ d = 5 \/ d = 6 \/
          d = 7 \/ d = 8 \/ d = 9) as Hd by lia.
  repeat (destruct Hd as [->|Hd]; [reflexivity|]). subst d. reflexivity.
Qed.

Lemma digit_not_sign (c : ascii) (d : Z) :
  digit c = Some d -> Ascii.eqb c "+" = false /\ Ascii.eqb c "-" = false.
Proof.
  intros H. split; apply Ascii.eqb_neq; intros ->; discriminate H.
Qed.

Lemma decimal_digits_le (cs : list ascii) (acc v : Z) :
  0 <= acc -> decimal_digits cs acc = Some v -> acc <= v.
Proof.
  revert acc. induction cs as [|c cs IH]; intros acc Hacc; simpl.
  - intros [= <-]. lia.
  - destruct (digit c) as [d|] eqn:Ed; [|discriminate].
    intros H. apply digit_range in Ed. apply IH in H; lia.
Qed.

(** *** Formatting *)

Lemma format_loop_nonempty (fuel : nat) (u : Z) (a : list ascii) :
  a <> [] -> format_loop fuel u a <> [].
Proof.
  revert u a. induction fuel as [|fuel IH]; intros u a Ha; simpl; [exact Ha|].
  destruct (u <? 10); [discriminate|]. apply IH. discriminate.
Qed.

Lemma format_loop_value (fuel : nat) (u : Z) (a : list ascii) :
  0 <= u < 10 ^ Z.of_nat fuel ->
  decimal_digits (format_loop fuel u a) 0 = decimal_digits a u.
Proof.
  revert u a. induction fuel as [|fuel IH]; intros u a Hu.
  - simpl in Hu. assert (u = 0) as -> by lia. reflexivity.
  - cbn [format_loop].
    assert (Hmod : 0 <= u mod 10 <= 9) by (pose proof (Z.mod_pos_bound u 10); lia).
    destruct (u <? 10) eqn:E.
    + apply Z.ltb_lt in E. cbn [decimal_digits].
      rewrite digit_digit_char by exact Hmod.
      rewrite Z.mod_small by lia. reflexivity.
    + apply Z.ltb_ge in E. rewrite IH.
      * cbn [decimal_digits]. rewrite digit_digit_char by exact Hmod.
        f_equal. pose proof (Z.div_mod u 10). lia.
      * rewrite Nat2Z.inj_succ, Z.pow_succ_r in Hu by lia.
        split; [apply Z.div_pos; lia|].
        apply Z.div_lt_upper_bound; lia.
Qed.

(** The digits written by [formatBits] start with a digit and denote
    the number formatted. *)
Lemma format_loop_digits (u : Z) :
  0 <= u < 2 ^ 64 ->
  exists c rest d,
    format_loop 20 u [] = c :: rest /\ digit c = Some d /\
    decimal_digits (c :: rest) 0 = Some u.
Proof.
  intros Hu.
  assert (Hv : decimal_digits (format_loop 20 u []) 0 = Some u).
  { rewrite format_loop_value; [reflexivity|].
    change (10 ^ Z.of_nat 20) with 100000000000000000000.
    change (2 ^ 64) with 18446744073709551616 in Hu. lia. }
  destruct (format_loop 20 u []) as [|c rest] eqn:E.
  - exfalso. revert E. change (format_loop 20 u [])
      with (let a := [digit_char (u mod 10)] in
            if u <? 10 then a else format_loop 19 (u / 10) a).
    cbv zeta. destruct (u <? 10); [discriminate|].
    apply format_loop_nonempty. discriminate.
  - cbn [decimal_digits] in Hv. destruct (digit c) as [d|] eqn:Ed; [|discriminate].
    exists c, rest, d. cbn [decimal_digits]. rewrite Ed. auto.
Qed.

(** [FormatInt] writes the numeral of its argument. *)
Lemma FormatInt_numeral (i : Z) :
  is_int64 i -> decimal_numeral (FormatInt i) = Some i.
Proof.
  unfold is_int64, FormatInt, formatBits, decimal_numeral. intros Hi.
  destruct (i <? 0) eqn:Eneg.
  - apply Z.ltb_lt in Eneg.
    assert (Eu : uint64 (- uint64 i) = - i).
    { consts. rewrite <- (Z.mod_add i 1) by lia.
      rewrite (Z.mod_small (i + 1 * _)) by lia.
      rewrite <- (Z.mod_add _ 1) by lia. rewrite Z.mod_small; lia. }
    rewrite Eu. destruct (format_loop_digits (- i)) as (c & rest & d & E & Ed & Hv).
    { consts. lia. }
    rewrite E. unfold bytes.of_string, bytes.to_string.
    rewrite list_ascii_of_string_of_list_ascii.
    change (Ascii.eqb "-" "+") with false. change (Ascii.eqb "-" "-") with true.
    cbv iota. rewrite Hv. simpl. f_equal. lia.
  - apply Z.ltb_ge in Eneg.
    assert (Eu : uint64 i = i) by (consts; apply Z.mod_small; lia).
    rewrite Eu. destruct (format_loop_digits i) as (c & rest & d & E & Ed & Hv).
    { consts. lia. }
    rewrite E. unfold bytes.of_string, bytes.to_string.
    rewrite list_ascii_of_string_of_list_ascii.
    destruct (digit_not_sign c d Ed) as [-> ->]. exact Hv.
Qed.

(** *** Parsing *)

Lemma ParseUint_loop_complete (s0 : string) (cs : list ascii) (n v : Z) :
  0 <= n -> decimal_digits cs n = Some v -> v < 2 ^ 64 ->
  ParseUint_loop s0 cs n = (v, None).
Proof.
  revert n. induction cs as [|c cs IH]; intros n Hn Hv Hlt; simpl in *.
  - congruence.
  - destruct (digit c) as [d|] eqn:Ed; [|discriminate].
    pose proof (digit_range c d Ed) as Hd.
    pose proof (decimal_digits_le cs (10 * n + d) v ltac:(lia) Hv) as Hle.
    consts.
    destruct (n >=? 1844674407370955162) eqn:E1; [lia|].
    rewrite (Z.mod_small (n * 10)) by lia.
    rewrite (Z.mod_small (n * 10 + d)) by lia.
    destruct (n * 10 + d <? n * 10) eqn:E2; [lia|].
    destruct (n * 10 + d >? 18446744073709551616 - 1) eqn:E3; [lia|].
    cbn [orb]. apply IH; [lia| |lia].
    rewrite <- Hv. f_equal. lia.
Qed.

Lemma ParseUint_loop_sound (s0 : string) (cs : list ascii) (n v : Z) :
  0 <= n < 2 ^ 64 -> ParseUint_loop s0 cs n = (v, None) ->
  decimal_digits cs n = Some v /\ 0 <= v < 2 ^ 64.
Proof.
  revert n. induction cs as [|c cs IH]; intros n Hn; simpl.
  - intros [= <-]. auto.
  - destruct (digit c) as [d|] eqn:Ed; [|discriminate].
    pose proof (digit_range c d Ed) as Hd. consts.
    destruct (n >=? 1844674407370955162) eqn:E1; [discriminate|].
    rewrite (Z.mod_small (n * 10)) by lia.
    destruct (Z_lt_le_dec (n * 10 + d) 18446744073709551616) as [Hs|Hb].
    + rewrite (Z.mod_small (n * 10 + d)) by lia.
      destruct (_ || _); [discriminate|].
      intros H. apply IH in H; [|lia].
      replace (10 * n + d) with (n * 10 + d) by lia. exact H.
    + assert (Ew : (n * 10 + d) mod 18446744073709551616
                   = n * 10 + d - 18446744073709551616).
      { rewrite <- (Z.mod_add _ (-1)) by lia. apply Z.mod_small. lia. }
      rewrite Ew.
      destruct (n * 10 + d - 18446744073709551616 <? n * 10) eqn:E2; [|lia].
      discriminate.
Qed.

(** The errors of [ParseUint] are number errors. *)
Lemma ParseUint_loop_error (s0 : string) (cs : list ascii) (n v : Z) (e : error) :
  ParseUint_loop s0 cs n = (v, Some e) ->
  e = NumErrSyntax "ParseUint" s0 \/
  e = NumErrRange "ParseUint" s0 /\ v = maxUint64.
Proof.
  revert n. induction cs as [|c cs IH]; intros n; simpl; [discriminate|].
  destruct (digit c); [|intros [= <- <-]; auto].
  destruct (_ >=? _); [intros [= <- <-]; auto|].
  destruct (_ || _); [intros [= <- <-]; auto|]. apply IH.
Qed.

Lemma int64_small (z : Z) : is_int64 z -> int64 z = z.
Proof. unfold is_int64. intros H. consts. rewrite Z.mod_small; lia. Qed.

Lemma ParseUint_spec (cs : list ascii) (v : Z) :
  ParseUint cs = (v, None) <->
  cs <> [] /\ decimal_digits cs 0 = Some v /\ v < 2 ^ 64.
Proof.
  unfold ParseUint. destruct cs as [|c cs].
  - split; [discriminate|intros [H _]; congruence].
  - split.
    + intros H. apply ParseUint_loop_sound in H; [|consts; lia].
      split; [discriminate|]. split; [apply H|lia].
    + intros (_ & H & Hlt). now apply ParseUint_loop_complete.
Qed.

Lemma ParseUint_nonneg (cs : list ascii) (v : Z) :
  ParseUint cs = (v, None) -> 0 <= v.
Proof.
  intros H. apply ParseUint_spec in H. destruct H as (_ & H & _).
  apply decimal_digits_le in H; lia.
Qed.

Lemma ParseUint_error (cs : list ascii) (v : Z) (e : error) :
  ParseUint cs = (v, Some e) ->
  (exists s0, e = NumErrSyntax "ParseUint" s0) \/
  (exists s0, e = NumErrRange "ParseUint" s0) /\ v = maxUint64.
Proof.
  unfold ParseUint. destruct cs as [|c cs].
  - intros [= <- <-]. eauto.
  - intros H. apply ParseUint_loop_error in H. destruct H as [->|[-> ->]]; eauto.
Qed.

(** The part of [ParseInt] after the sign. *)
Lemma ParseInt_tail (s0 : string) (neg : bool) (cs : list ascii) (n : Z) :
  (let '(un, err) := ParseUint cs in
   match err with
   | Some (NumErrRange _ _) | None =>
       let cutoff := 2 ^ 63 in
       if negb neg && (un >=? cutoff) then
         (int64 (cutoff - 1), Some (NumErrRange "ParseInt" s0))
       else if neg && (un >? cutoff) then
         (int64 (- cutoff), Some (NumErrRange "ParseInt" s0))
       else
         let n := int64 un in
         (if neg then int64 (- n) else n, None)
   | Some _ => (0, Some (NumErrSyntax "ParseInt" s0))
   end) = (n, None) <->
  cs <> [] /\ exists u, decimal_digits cs 0 = Some u /\
                        n = (if neg then - u else u) /\ is_int64 n.
Proof.
  destruct (ParseUint cs) as [un err] eqn:E. split.
  - destruct err as [e|].
    + destruct (ParseUint_error _ _ _ E) as [[s1 ->]|[[s1 ->] ->]];
        [discriminate|].
      consts. destruct neg; simpl; discriminate.
    + pose proof (ParseUint_nonneg _ _ E) as Hpos.
      apply ParseUint_spec in E. destruct E as (Hne & Hv & Hlt).
      cbv zeta. unfold is_int64. consts.
      destruct neg; cbn [negb andb].
      * destruct (un >? 9223372036854775808) eqn:E1; [discriminate|].
        intros [= <-]. split; [exact Hne|]. exists un. split; [exact Hv|].
        assert (un = 9223372036854775808 \/ un < 9223372036854775808) as [->|Hs] by lia.
        -- vm_compute. repeat split; discriminate.
        -- rewrite (Z.mod_small (un + _)) by lia.
           replace (- (un + 9223372036854775808 - 9223372036854775808) + 9223372036854775808)
             with (9223372036854775808 - un) by lia.
           rewrite Z.mod_small by lia. lia.
      * destruct (un >=? 9223372036854775808) eqn:E1; [discriminate|].
        intros [= <-]. split; [exact Hne|]. exists un. split; [exact Hv|].
        rewrite Z.mod_small by lia. lia.
  - intros (Hne & u & Hu & -> & Hi).
    assert (Hpos : 0 <= u) by (apply decimal_digits_le in Hu; lia).
    assert (E' : ParseUint cs = (u, None)).
    { apply ParseUint_spec. unfold is_int64 in Hi. consts.
      repeat split; try assumption. destruct neg; lia. }
    rewrite E' in E. injection E as <- <-.
    cbv zeta. unfold is_int64 in Hi. consts.
    destruct neg; cbn [negb andb].
    + destruct (u >? 9223372036854775808) eqn:E1; [lia|].
      f_equal.
      assert (u = 9223372036854775808 \/ u < 9223372036854775808) as [->|Hs] by lia.
      * vm_compute. reflexivity.
      * rewrite (Z.mod_small (u + _)) by lia.
        replace (- (u + 9223372036854775808 - 9223372036854775808) + 9223372036854775808)
          with (9223372036854775808 - u) by lia.
        rewrite Z.mod_small by lia. lia.
    + destruct (u >=? 9223372036854775808) eqn:E1; [lia|].
      f_equal. rewrite Z.mod_small by lia. lia.
Qed.

(** [ParseInt] accepts exactly the numerals of the [int64] range, and
    returns the number denoted. *)
Theorem ParseInt_spec (s : string) (n : Z) :
  ParseInt s = (n, None) <-> decimal_numeral s = Some n /\ is_int64 n.
Proof.
  unfold ParseInt, decimal_numeral.
  destruct (bytes.of_string s) as [|c rest]; [split; [discriminate|intros [? _]; discriminate]|].
  destruct (Ascii.eqb c "+") eqn:Eplus; [|destruct (Ascii.eqb c "-") eqn:Eminus].
  - rewrite (ParseInt_tail s false rest n). split.
    + intros (Hne & u & Hu & -> & Hi). destruct rest; [congruence|]. auto.
    + intros [H Hi]. destruct rest as [|c' rest']; [discriminate|].
      split; [discriminate|]. eauto.
  - rewrite (ParseInt_tail s true rest n). split.
    + intros (Hne & u & Hu & -> & Hi). destruct rest; [congruence|].
      rewrite Hu. auto.
    + intros [H Hi]. destruct rest as [|c' rest']; [discriminate|].
      split; [discriminate|].
      destruct (decimal_digits (c' :: rest') 0) as [u|]; [|discriminate].
      injection H as <-. eauto.
  - rewrite (ParseInt_tail s false (c :: rest) n). split.
    + intros (Hne & u & Hu & -> & Hi). auto.
    + intros [H Hi]. split; [discriminate|]. eauto.
Qed.

(** Every error of [ParseInt] is a number error of [ParseInt]. *)
Lemma ParseInt_error (s : string) (v : Z) (e : error) :
  ParseInt s = (v, Some e) ->
  e = NumErrSyntax "ParseInt" s \/ e = NumErrRange "ParseInt" s.
Proof.
  unfold ParseInt. destruct (bytes.of_string s) as [|c rest]; [intros [= <- <-]; auto|].
  destruct (if Ascii.eqb c "+" then (false, rest)
            else if Ascii.eqb c "-" then (true, rest) else (false, c :: rest))
    as [neg cs].
  destruct (ParseUint cs) as [un [e'|]]; cbv zeta.
  - destruct e'; try (intros [= <- <-]; auto);
      destruct (_ && _); try (intros [= <- <-]; auto);
      destruct (_ && _); intros [= <- <-]; auto.
  - destruct (_ && _); try (intros [= <- <-]; auto);
      destruct (_ && _); try (intros [= <- <-]; auto); discriminate.
Qed.

(** [ParseInt] reads back what [FormatInt] wrote. *)
Theorem ParseInt_FormatInt (i : Z) :
  is_int64 i -> ParseInt (FormatInt i) = (i, None).
Proof.
  intros Hi. apply ParseInt_spec. split; [now apply FormatInt_numeral|exact Hi].
Qed.

End strconv_facts.

(** ** Sessions *)

Lemma set_store_id (s : sessions.Session) :
  sessions.set_store (sessions.store s) s = s.
Proof. destruct s; reflexivity. Qed.

Lemma set_registry_id (r : sessions.Request) :
  sessions.set_registry (sessions.registry r) r = r.
Proof. destruct r; reflexivity. Qed.

Section SessionFacts.

Variable Encode :
  securecookie.SecureCookie -> string -> gmap Dyn Dyn -> string + string.
Variable Decode :
  securecookie.SecureCookie -> string -> string -> gmap Dyn Dyn + string.
Variable int_Seconds : Z -> Z.

Lemma DecodeMulti_cases (name value : string) (codecs : list securecookie.SecureCookie) :
(exists dst, securecookie.DecodeMulti Decode name value codecs = (Some dst, None)) \/
(exists e, securecookie.DecodeMulti Decode name value codecs = (None, Some e)).
Proof.
unfold securecookie.DecodeMulti. destruct codecs as [|c cs]; [right; eauto|].
generalize (@nil string). generalize (c :: cs). clear.
intros l. induction l as [|c l IH]; intros errs; simpl; [right; eauto|].
destruct (Decode c name value); [left; eauto|apply IH].
Qed.

(** What [Registry.Get] returns when it returns a session. *)
Lemma Registry_Get_post (st : option sessions.CookieStore) (name : string)
  (r r0 : sessions.Request) (s : sessions.Session) (e : option error) :
sessions.Registry_Get Decode st name r = Ret (Some s, e, r0) ->
http.isCookieNameValid name = true /\
r0 = sessions.set_registry (<[name := (s, e)]> (sessions.registry r)) r /\
sessions.store s = st.
Proof.
unfold sessions.Registry_Get.
destruct (http.isCookieNameValid name); [|discriminate]. cbn [negb].
destruct (sessions.registry r !! name) as [[s1 e1]|].
- intros [= <- <- <-]. auto.
- destruct (sessions.CookieStore_New Decode st r name) as [[s1 e1]|]; [|discriminate].
  cbn. intros [= <- <- <-]. auto.
Qed.

(** The registry answers a second [Get] for the same name and store with
  the session it holds, and stays as it is. *)
Lemma Registry_Get_cached (st : option sessions.CookieStore) (name : string)
  (r : sessions.Request) (s : sessions.Session) (e : option error) :
http.isCookieNameValid name = true ->
sessions.registry r !! name = Some (s, e) ->
sessions.store s = st ->
sessions.Registry_Get Decode st name r = Ret (Some s, e, r).
Proof.
intros Hv Hr <-. unfold sessions.Registry_Get. rewrite Hv, Hr. cbn [negb].
rewrite set_store_id, insert_id by exact Hr. now rewrite set_registry_id.
Qed.

Lemma commit_lookup (key : string) (s s0 : sessions.Session) (e : option error)
  (r : sessions.Request) :
sessions.registry r !! key = Some (s0, e) ->
sessions.registry (sessions.commit key s r) !! key = Some (s, e).
Proof.
intros H. unfold sessions.commit. rewrite H. cbn. apply lookup_insert_eq.
Qed.


(** A session was loaded for the request, without error. *)
Lemma GetSession_post (c : Config) (r r0 : sessions.Request)
    (s : sessions.Session) (e : option error) :
  GetSession Decode c r = Ret (Some s, e, r0) ->
  http.isCookieNameValid (CookieName c) = true /\
  sessions.registry r0 !! CookieName c = Some (s, e) /\
  sessions.store s = store c.
Proof.
  intros H. apply Registry_Get_post in H. destruct H as (Hv & -> & Hs).
  repeat split; try assumption. cbn. apply lookup_insert_eq.
Qed.

(** Take apart a successful run of an accessor that loads the session,
    writes to it and saves it. *)
Lemma AddValue_inv (c : Config) (w w' : http.ResponseWriter)
    (r r' : sessions.Request) (key value : string) :
  AddValue Encode Decode c w r key value = Ret (None, r', w') ->
  exists s r0,
    GetSession Decode c r = Ret (Some s, None, r0) /\
    r' = sessions.commit (CookieName c)
           (sessions.set_Values
              (<[DStr key := DStr value]> (sessions.Values s)) s) r0.
Proof.
  unfold AddValue. destruct (GetSession Decode c r) as [[[so e] r0]|]; [|discriminate].
  cbn. destruct e; [discriminate|]. destruct so as [s|]; [|discriminate].
  cbn. destruct (sessions.Save Encode _ w) as [[e' w1]|]; [|discriminate].
  cbn. intros [= -> <- <-]. eauto.
Qed.

Lemma GetValue_cached (c : Config) (r : sessions.Request)
    (s : sessions.Session) (key : string) :
  http.isCookieNameValid (CookieName c) = true ->
  sessions.registry r !! CookieName c = Some (s, None) ->
  sessions.store s = store c ->
  GetValue Decode c r key =
    match as_string (sessions.Values s !! DStr key) with
    | Some value => Ret (value, None, r)
    | None => Ret (""%string, Some ErrKeyNotFound, r)
    end.
Proof.
  intros Hv Hr Hs. unfold GetValue, GetSession, sessions.CookieStore_Get.
  rewrite (Registry_Get_cached _ _ _ _ _ Hv Hr Hs). reflexivity.
Qed.

Lemma GetValue_of_GetSession (c : Config) (r r0 : sessions.Request)
    (s : sessions.Session) (key : string) :
  GetSession Decode c r = Ret (Some s, None, r0) ->
  GetValue Decode c r key =
    match as_string (sessions.Values s !! DStr key) with
    | Some value => Ret (value, None, r0)
    | None => Ret (""%string, Some ErrKeyNotFound, r0)
    end.
Proof. intros H. unfold GetValue. rewrite H. reflexivity. Qed.

Lemma AddValue_then_GetValue (c : Config) (w w' : http.ResponseWriter)
    (r r' : sessions.Request) (key value : string) :
  AddValue Encode Decode c w r key value = Ret (None, r', w') ->
  GetValue Decode c r' key = Ret (value, None, r').
Proof.
  intros H. apply AddValue_inv in H. destruct H as (s & r0 & Hget & ->).
  apply GetSession_post in Hget. destruct Hget as (Hv & Hr & Hs).
  erewrite GetValue_cached; [| exact Hv | eapply commit_lookup, Hr | exact Hs].
  cbn. rewrite lookup_insert_eq. reflexivity.
Qed.

(** C3: a value added under a key is the value read back under that key
    from the same request; a key that is absent, or that holds a value
    that is no string, reads as [ErrKeyNotFound]. *)
Theorem add_get_value (c : Config) (r : sessions.Request) (key : string) :
  (forall w value r' w',
      AddValue Encode Decode c w r key value = Ret (None, r', w') ->
      GetValue Decode c r' key = Ret (value, None, r')) /\
  (forall s r',
      GetSession Decode c r = Ret (Some s, None, r') ->
      (sessions.Values s !! DStr key = None \/
       exists d, sessions.Values s !! DStr key = Some d /\
                 forall x, d <> DStr x) ->
      GetValue Decode c r key = Ret (""%string, Some ErrKeyNotFound, r')).
Proof.
  split.
  - intros w value r' w'. apply AddValue_then_GetValue.
  - intros s r' Hget Habs. rewrite (GetValue_of_GetSession _ _ _ _ _ Hget).
    destruct Habs as [->|(d & -> & Hd)]; [reflexivity|].
    destruct d; try reflexivity. exfalso. eapply Hd. reflexivity.
Qed.

(** What [Destroy] writes next to what [Extend] writes: the same outcome,
    and on success the same cookie but for its [MaxAge]. *)
Lemma destroy_next_to_extend (c : Config) (w : http.ResponseWriter)
    (r : sessions.Request) :
  match Extend Encode Decode int_Seconds c w r with
  | Panic msg => Destroy Encode Decode int_Seconds c w r = Panic msg
  | Ret (Some e, _, w1) =>
      w1 = w /\
      exists r2, Destroy Encode Decode int_Seconds c w r = Ret (Some e, r2, w)
  | Ret (None, _, w1) =>
      exists name encoded r2,
        w1 = w ++ [sessions.NewCookie name encoded (getOptions int_Seconds c)] /\
        Destroy Encode Decode int_Seconds c w r =
          Ret (None, r2,
               w ++ [sessions.NewCookie name encoded
                       (sessions.set_MaxAge (-1) (getOptions int_Seconds c))])
  end.
Proof.
  unfold Extend, Destroy.
  destruct (GetSession Decode c r) as [[[so e] r0]|]; [|reflexivity].
  cbn. destruct e; [split; eauto|].
  destruct so as [s|]; [|reflexivity].
  cbn. unfold sessions.Save, sessions.CookieStore_Save. cbn.
  destruct (sessions.store s) as [cs|]; [|reflexivity].
  destruct (securecookie.EncodeMulti Encode _ _ _) as [encoded [e|]]; cbn; eauto.
Qed.

(** C5: [Extend] and [Destroy] are the same steps -- obtain the session,
    derive the options from the fields the configuration has now, save --
    and differ in one thing only: [Destroy] sets the derived options'
    [MaxAge] to -1 before it saves, [Extend] saves them as derived.  Both
    are [save_with_options], the steps as the specification gives them, with
    the identity and with the [MaxAge] override.  What they do differs
    accordingly: the same panic, the same error without a cookie, or one
    cookie each, of the same name and value, whose domain, path, flags and
    same-site mode are the fields of the configuration, and whose maximum
    age is the seconds of the configuration's [MaxAge] for [Extend] and -1
    for [Destroy]. *)
Theorem extend_destroy_same_steps (c : Config) (w : http.ResponseWriter)
    (r : sessions.Request) :
  Extend Encode Decode int_Seconds c w r =
    save_with_options Encode Decode int_Seconds (fun o => o) c w r /\
  Destroy Encode Decode int_Seconds c w r =
    save_with_options Encode Decode int_Seconds (sessions.set_MaxAge (-1))
      c w r /\
  match Extend Encode Decode int_Seconds c w r with
  | Panic msg => Destroy Encode Decode int_Seconds c w r = Panic msg
  | Ret (Some e, _, w1) =>
      w1 = w /\
      exists r2, Destroy Encode Decode int_Seconds c w r = Ret (Some e, r2, w)
  | Ret (None, r1, w1) =>
      exists extended destroyed r2,
        w1 = w ++ [extended] /\
        Destroy Encode Decode int_Seconds c w r
        = Ret (None, r2, w ++ [destroyed]) /\
        http.MaxAge extended = int_Seconds (MaxAge c) /\
        http.MaxAge destroyed = -1 /\
        http.Name destroyed = http.Name extended /\
        http.Value destroyed = http.Value extended /\
        (http.Domain extended = Domain c /\ http.Path extended = Path c /\
         http.Secure extended = Secure c /\
         http.HttpOnly extended = HTTPOnly c /\
         http.SameSiteAttr extended = SameSite c) /\
        (http.Domain destroyed = Domain c /\ http.Path destroyed = Path c /\
         http.Secure destroyed = Secure c /\
         http.HttpOnly destroyed = HTTPOnly c /\
         http.SameSiteAttr destroyed = SameSite c)
  end.
Proof.
  split; [|split].
  - unfold Extend, save_with_options.
    destruct (GetSession Decode c r) as [[[so e] r0]|]; [|reflexivity].
    cbn. destruct e; [reflexivity|]. destruct so; reflexivity.
  - unfold Destroy, save_with_options.
    destruct (GetSession Decode c r) as [[[so e] r0]|]; [|reflexivity].
    cbn. destruct e; [reflexivity|]. destruct so; reflexivity.
  - pose proof (destroy_next_to_extend c w r) as H.
    destruct (Extend Encode Decode int_Seconds c w r)
      as [[[[e|] r1] w1]|]; try exact H.
    destruct H as (name & encoded & r2 & -> & ->).
    eexists _, _, r2. repeat split; reflexivity.
Qed.


Lemma convert_entries_strings (l : list (Dyn * Dyn)) (kv0 : gmap string string) :
NoDup l.*1 ->
(forall k v, (k, v) ∈ l -> exists ks vs, k = DStr ks /\ v = DStr vs) ->
exists kv,
  convert_entries l kv0 = Ret kv /\
  forall ks vs,
    kv !! ks = Some vs <->
    (DStr ks, DStr vs) ∈ l \/
    (forall v, (DStr ks, v) ∉ l) /\ kv0 !! ks = Some vs.
Proof.
revert kv0. induction l as [|[k v] l IH]; intros kv0 Hnd Hstr.
- exists kv0. split; [reflexivity|]. intros ks vs. split.
  + intros H. right. split; [|exact H]. intros v0 Hin. inversion Hin.
  + intros [Hin|[_ H]]; [inversion Hin|exact H].
- destruct (Hstr k v) as (k1 & v1 & -> & ->); [left|].
  cbn in Hnd. apply NoDup_cons in Hnd. destruct Hnd as [Hk Hnd].
  destruct (IH (<[k1 := v1]> kv0) Hnd) as (kv & Hrun & Hkv).
  { intros k v Hin. apply Hstr. now right. }
  exists kv. split; [exact Hrun|]. intros ks vs. rewrite Hkv. clear Hkv.
  assert (Hfresh : forall v, (DStr k1, v) ∉ l).
  { intros v0 Hin. apply Hk. apply list_elem_of_fmap. now exists (DStr k1, v0). }
  destruct (decide (k1 = ks)) as [->|Hne].
  + rewrite lookup_insert_eq. split.
    * intros [Hin|[_ [= ->]]]; [now apply Hfresh in Hin|left; left].
    * intros [Hin|[Hno _]].
      -- apply elem_of_cons in Hin. destruct Hin as [[= ->]|Hin];
           [right; auto|now apply Hfresh in Hin].
      -- exfalso. apply (Hno (DStr v1)). left.
  + rewrite lookup_insert_ne by exact Hne. split.
    * intros [Hin|[Hno H]]; [left; now right|right]. split; [|exact H].
      intros v0 Hin. apply elem_of_cons in Hin. destruct Hin as [[= -> _]|Hin];
        [congruence|now apply Hno in Hin].
    * intros [Hin|[Hno H]].
      -- apply elem_of_cons in Hin. destruct Hin as [[= -> _]|Hin];
           [congruence|now left].
      -- right. split; [|exact H]. intros v0 Hin. apply (Hno v0). now right.
Qed.

(** C7: when every entry of the session has a string key and a string
    value, [GetAllValues] returns exactly these entries, as strings, and no
    error; neither type assertion fails. *)
Theorem GetAllValues_strings (c : Config) (r r' : sessions.Request)
    (s : sessions.Session)
    (Hget : GetSession Decode c r = Ret (Some s, None, r'))
    (Hstr : all_strings (sessions.Values s)) :
  exists kv,
    GetAllValues Decode c r = Ret (kv, None, r') /\
    forall ks vs,
      kv !! ks = Some vs <->
      sessions.Values s !! DStr ks = Some (DStr vs).
Proof.
  unfold GetAllValues. rewrite Hget. cbn.
  destruct (convert_entries_strings (map_to_list (sessions.Values s)) ∅)
    as (kv & Hrun & Hkv).
  - apply NoDup_fst_map_to_list.
  - intros k v Hin. apply elem_of_map_to_list in Hin. now apply Hstr.
  - rewrite Hrun. cbn. exists kv. split; [reflexivity|].
    intros ks vs. rewrite Hkv, elem_of_map_to_list, lookup_empty. 
    split; [intros [H|[_ H]]; [exact H|discriminate]|auto].
Qed.

(** C9: a user ID written by [AddUserID] is the number [GetUserID] reads
    back from the same request; a stored user ID that is no base-10
    [int64] makes [GetUserID] fail with the number error of
    [strconv.ParseInt], which is not [ErrKeyNotFound]. *)
Theorem user_id_roundtrip (c : Config) (r : sessions.Request) :
  (forall n w r' w',
      is_int64 n ->
      AddUserID Encode Decode c w r n = Ret (None, r', w') ->
      GetUserID Decode c r' = Ret (n, None, r')) /\
  (forall valStr r',
      GetValue Decode c r keyUserID = Ret (valStr, None, r') ->
      ~ base10_int64 valStr ->
      exists v e,
        GetUserID Decode c r = Ret (v, Some e, r') /\
        (e = NumErrSyntax "ParseInt" valStr \/
         e = NumErrRange "ParseInt" valStr) /\
        e <> ErrKeyNotFound).
Proof.
  split.
  - intros n w r' w' Hn Hadd. unfold AddUserID in Hadd.
    apply AddValue_then_GetValue in Hadd. unfold GetUserID.
    rewrite Hadd. cbn.
    rewrite (strconv_facts.ParseInt_FormatInt n Hn). reflexivity.
  - intros valStr r' Hget Hbad. unfold GetUserID. rewrite Hget. cbn.
    destruct (strconv.ParseInt valStr) as [v [e|]] eqn:E.
    + exists v, e. split; [reflexivity|].
      apply strconv_facts.ParseInt_error in E.
      split; [exact E|]. destruct E as [-> | ->]; discriminate.
    + exfalso. apply Hbad. exists v. now apply strconv_facts.ParseInt_spec.
Qed.

(** C1, amended: [GetSession] hands on what the store returns.  On the
    first access of a request, with a store that is set up: without the
    cookie the result is a new empty session ([IsNew] true) and no error;
    with a cookie that fails verification it is a new empty session
    ([IsNew] true) together with the codecs' error, which the caller gets;
    with a cookie that verifies it is the decoded session ([IsNew] false)
    and no error. *)
Theorem GetSession_first_access (c : Config) (cs : sessions.CookieStore)
    (r : sessions.Request)
    (Hstore : store c = Some cs)
    (Hname : http.isCookieNameValid (CookieName c) = true)
    (Hfresh : sessions.registry r !! CookieName c = None) :
  first_access Decode c cs r (GetSession Decode c r).
Proof.
  unfold first_access, GetSession, sessions.CookieStore_Get,
    sessions.Registry_Get, sessions.CookieStore_New.
  rewrite Hstore, Hname, Hfresh. cbn [negb].
  destruct (sessions.Cookie (sessions.Cookies r) (CookieName c)) as [value|].
  - destruct (DecodeMulti_cases (CookieName c) value (sessions.Codecs cs))
      as [[dst ->]|[e ->]]; cbn; eexists _, _; (split; [reflexivity|]);
      cbn; auto.
  - cbn. eexists _, _. split; [reflexivity|]. cbn. auto.
Qed.

(** C10, amended: with a nil store (no [Init] has succeeded), a valid
    cookie name and a request that holds no session for that name, every
    session operation panics on the nil store. *)
Theorem nil_store_panics (c : Config)
    (r : sessions.Request) (w : http.ResponseWriter) (key value : string)
    (Hnil : store c = None)
    (Hname : http.isCookieNameValid (CookieName c) = true)
    (Hfresh : sessions.registry r !! CookieName c = None) :
  GetSession Decode c r = Panic nil_dereference /\
  AddValue Encode Decode c w r key value = Panic nil_dereference /\
  GetValue Decode c r key = Panic nil_dereference /\
  GetAllValues Decode c r = Panic nil_dereference /\
  Extend Encode Decode int_Seconds c w r = Panic nil_dereference /\
  Destroy Encode Decode int_Seconds c w r = Panic nil_dereference.
Proof.
  assert (H : GetSession Decode c r = Panic nil_dereference).
  { unfold GetSession, sessions.CookieStore_Get, sessions.Registry_Get.
    rewrite Hnil, Hname, Hfresh. reflexivity. }
  unfold AddValue, GetValue, GetAllValues, Extend, Destroy.
  rewrite H. repeat split; reflexivity.
Qed.

(** [Init] sets the store up exactly when it succeeds. *)
Lemma Init_store (rnd : securecookie.Entropy) (c : Config) :
  match Init int_Seconds rnd c with
  | (None, c', _) => store c' <> None
  | (Some _, c', _) => store c' = store c
  end.
Proof.
  unfold Init. pose proof (validate_early_fields rnd c) as H.
  destruct (validate rnd c) as [[[e|] c'] rnd']; cbn in *; [apply H|discriminate].
Qed.

(** A string entry keeps a session of strings a session of strings. *)
Lemma all_strings_insert (m : gmap Dyn Dyn) (key value : string) :
  all_strings m -> all_strings (<[DStr key := DStr value]> m).
Proof.
  intros Hm k v H. apply lookup_insert_Some in H.
  destruct H as [[<- <-]|[_ H]]; [eauto|exact (Hm k v H)].
Qed.

End SessionFacts.

(** ** The claims on concrete inputs *)

(** [Init] has set the store of [example_config] up. *)
Lemma example_config_store : store example_config = Some example_store.
Proof. vm_compute. reflexivity. Qed.

(** C1, as the specification states it, fails: [example_config] is set up
    by a successful [Init], the request carries a session cookie that does
    not verify, and [GetSession] returns the codecs' error to its caller
    (next to a new, empty session). *)
Lemma GetSession_tampered_cookie_error :
  (Init example_Seconds example_rnd NewConfig).1.1 = None /\
  exists s r',
    GetSession example_Decode example_config request_tampered =
      Ret (Some s,
           Some (MultiError ["securecookie: the value is not valid"%string]),
           r') /\
    sessions.IsNew s = true /\ sessions.Values s = ∅.
Proof.
  split; [vm_compute; reflexivity|].
  eexists _, _. split; [vm_compute; reflexivity|]. split; reflexivity.
Qed.

(** [GetSession_first_access] on [example_config] and a request whose
    session cookie does not verify. *)
Lemma GetSession_first_access_witness :
  first_access example_Decode example_config example_store request_tampered
    (GetSession example_Decode example_config request_tampered).
Proof.
  apply (GetSession_first_access example_Decode example_config example_store request_tampered).
  - vm_compute. reflexivity.
  - vm_compute. reflexivity.
  - vm_compute. reflexivity.
Defined.

(** [add_get_value] on the flow of [TestAddAndGetValue]. *)
Lemma add_get_value_witness :
  exists r' w',
    AddValue example_Encode example_Decode example_config [] request_plain "key" "value" =
      Ret (None, r', w') /\
    GetValue example_Decode example_config r' "key" = Ret ("value"%string, None, r').
Proof.
  eexists _, _. split; [vm_compute; reflexivity|].
  eapply (proj1 (add_get_value example_Encode example_Decode example_config request_plain "key") [] "value").
  vm_compute. reflexivity.
Defined.

(** The rules of C4 as the specification states them, without the order of
    the tests, fail: a short maximum age is reported before a key of the
    wrong size and leaves an empty key empty, and an authentication key of
    the wrong size is reported before an encryption key of the wrong
    size. *)
Lemma validate_key_rules_order :
  (String.length (AuthKey (set_MaxAge 0 (set_AuthKey "too short" NewConfig)))
   <> 0%nat /\
   String.length (AuthKey (set_MaxAge 0 (set_AuthKey "too short" NewConfig)))
   <> 64%nat /\
   (validate example_rnd
      (set_MaxAge 0 (set_AuthKey "too short" NewConfig))).1.1
   = Some ErrMaxAgeTooShort /\
   ErrMaxAgeTooShort <> ErrAuthKeyWrongSize) /\
  (AuthKey (set_MaxAge 0 NewConfig) = ""%string /\
   AuthKey (validate example_rnd (set_MaxAge 0 NewConfig)).1.2 = ""%string /\
   EncryptKey (validate example_rnd (set_MaxAge 0 NewConfig)).1.2
   = ""%string) /\
  (String.length
     (EncryptKey (set_EncryptKey "too short"
                    (set_AuthKey "too short" NewConfig))) <> 0%nat /\
   String.length
     (EncryptKey (set_EncryptKey "too short"
                    (set_AuthKey "too short" NewConfig))) <> 32%nat /\
   (validate example_rnd
      (set_EncryptKey "too short" (set_AuthKey "too short" NewConfig))).1.1
   = Some ErrAuthKeyWrongSize /\
   ErrAuthKeyWrongSize <> ErrEncyptKeyWrongSize).
Proof.
  repeat split; try (vm_compute; reflexivity); try discriminate;
    vm_compute; discriminate.
Qed.

(** [validate_key_lengths] on the short key of [TestValidate], with the
    default maximum age and with none. *)
Lemma validate_key_lengths_witness :
  (validate example_rnd (set_AuthKey "too short" NewConfig)).1.1
  = Some ErrAuthKeyWrongSize /\
  (validate example_rnd
     (set_MaxAge 0 (set_AuthKey "too short" NewConfig))).1.1
  = Some ErrMaxAgeTooShort.
Proof.
  split.
  - pose proof (validate_key_lengths example_rnd
                  (set_AuthKey "too short" NewConfig)) as H.
    destruct (validate example_rnd (set_AuthKey "too short" NewConfig))
      as [[err c'] rnd'].
    cbv zeta in H. destruct H as [_ H].
    destruct (H ltac:(vm_compute; discriminate)) as [Ha _].
    apply Ha; vm_compute; discriminate.
  - pose proof (validate_key_lengths example_rnd
                  (set_MaxAge 0 (set_AuthKey "too short" NewConfig))) as H.
    destruct (validate example_rnd
                (set_MaxAge 0 (set_AuthKey "too short" NewConfig)))
      as [[err c'] rnd'].
    cbv zeta in H. destruct H as [H _].
    apply H. vm_compute. reflexivity.
Defined.

(** [GetAllValues_strings] on a request whose cookie holds one string
    entry. *)
Lemma GetAllValues_strings_witness :
  exists kv r',
    GetAllValues example_Decode example_config request_kv = Ret (kv, None, r') /\
    kv !! "key"%string = Some "value"%string.
Proof.
  pose (s := {| sessions.ID := ""; 
                sessions.Values := {[ DStr "key" := DStr "value" ]};
                sessions.Opts := getOptions example_Seconds example_config;
                sessions.IsNew := false;
                sessions.store := store example_config;
                sessions.name := "session" |}).
  pose (r' := sessions.set_registry
                (<["session"%string := (s, None)]> ∅) request_kv).
  destruct (GetAllValues_strings example_Decode example_config request_kv r' s)
    as (kv & Hrun & Hkv).
  - vm_compute. reflexivity.
  - intros k v H. subst s. cbn [sessions.Values] in H.
    apply lookup_singleton_Some in H. destruct H as [<- <-]. eauto.
  - exists kv, r'. split; [exact Hrun|]. apply Hkv. reflexivity.
Defined.

(** [user_id_roundtrip] on the user ID 42, and on a cookie whose user ID
    is the string abc. *)
Lemma user_id_roundtrip_witness :
  (exists r' w',
      AddUserID example_Encode example_Decode example_config [] request_plain 42 = Ret (None, r', w') /\
      GetUserID example_Decode example_config r' = Ret (42, None, r')) /\
  (exists v e r',
      GetUserID example_Decode example_config request_abc = Ret (v, Some e, r') /\
      e <> ErrKeyNotFound).
Proof.
  split.
  - eexists _, _. split; [vm_compute; reflexivity|].
    eapply (proj1 (user_id_roundtrip example_Encode example_Decode example_config request_plain) 42 []).
    + unfold is_int64. lia.
    + vm_compute. reflexivity.
  - destruct (proj2 (user_id_roundtrip example_Encode example_Decode example_config request_abc)
                "abc"%string
                (sessions.set_registry
                   (<["session"%string :=
                        ({| sessions.ID := "";
                            sessions.Values :=
                              {[ DStr "user_id" := DStr "abc" ]};
                            sessions.Opts :=
                              getOptions example_Seconds example_config;
                            sessions.IsNew := false;
                            sessions.store := store example_config;
                            sessions.name := "session" |}, None)]> ∅)
                   request_abc))
      as (v & e & Hrun & _ & Hne).
    + vm_compute. reflexivity.
    + intros (n & Hn & _). vm_compute in Hn. discriminate Hn.
    + exists v, e. eexists. split; [exact Hrun|exact Hne].
Defined.

(** [nil_store_panics] on [NewConfig], which no [Init] has set up. *)
Lemma nil_store_panics_witness :
  GetSession example_Decode NewConfig request_plain = Panic nil_dereference /\
  AddValue example_Encode example_Decode NewConfig [] request_plain "key" "value" = Panic nil_dereference /\
  GetValue example_Decode NewConfig request_plain "key" = Panic nil_dereference /\
  GetAllValues example_Decode NewConfig request_plain = Panic nil_dereference /\
  Extend example_Encode example_Decode example_Seconds NewConfig [] request_plain = Panic nil_dereference /\
  Destroy example_Encode example_Decode example_Seconds NewConfig [] request_plain = Panic nil_dereference.
Proof.
  apply (nil_store_panics example_Encode example_Decode example_Seconds NewConfig request_plain [] "key"
           "value").
  - reflexivity.
  - vm_compute. reflexivity.
  - reflexivity.
Defined.

(** C10, as stated, fails.  Neither configuration below has been through
    [Init].  With a cookie name that is no token, the registry refuses the
    name before the store is touched: an error is returned, nothing panics.
    With a session for the name already in the request's registry (loaded
    here through [example_config]), [GetValue] reads it and never reaches
    the nil store. *)
Lemma nil_store_without_panic :
  store (set_CookieName "bad name" NewConfig) = None /\
  GetValue example_Decode (set_CookieName "bad name" NewConfig) request_plain "key" =
    Ret (""%string, Some (ErrCookieName "bad name"), request_plain) /\
  store NewConfig = None /\
  (exists s, GetSession example_Decode example_config request_kv =
               Ret (Some s, None, request_loaded)) /\
  exists r2,
    GetValue example_Decode NewConfig request_loaded "key" =
      Ret ("value"%string, None, r2).
Proof.
  split; [reflexivity|]. split; [vm_compute; reflexivity|].
  split; [reflexivity|]. split.
  - eexists. vm_compute. reflexivity.
  - eexists. vm_compute. reflexivity.
Qed.

(** ** The tests of the package, and some more *)

(** [TestValidate] *)
Example validate_default_ok : (validate example_rnd NewConfig).1.1 = None.
Proof. vm_compute. reflexivity. Qed.

Example validate_blank_domain :
  Domain (validate example_rnd (set_Domain "" NewConfig)).1.2 = "."%string.
Proof. vm_compute. reflexivity. Qed.

Example validate_blank_path :
  Path (validate example_rnd (set_Path "" NewConfig)).1.2 = "/"%string.
Proof. vm_compute. reflexivity. Qed.

(** A space, a tab and a no-break space (U+00A0, two bytes). *)
Example validate_whitespace_domain :
  Domain (validate example_rnd
            (set_Domain (String " " (String "009" (String "194" (String "160" ""))))
               NewConfig)).1.2 = "."%string.
Proof. vm_compute. reflexivity. Qed.

Example validate_other_domain :
  Domain (validate example_rnd (set_Domain " example.com " NewConfig)).1.2
  = " example.com "%string.
Proof. vm_compute. reflexivity. Qed.

Example validate_zero_max_age :
  (validate example_rnd (set_MaxAge 0 NewConfig)).1.1 = Some ErrMaxAgeTooShort.
Proof. vm_compute. reflexivity. Qed.

Example validate_zero_same_site :
  SameSite (validate example_rnd (set_SameSite 0 NewConfig)).1.2
  = defaultSameSite.
Proof. vm_compute. reflexivity. Qed.

Example validate_generates_keys :
  String.length (AuthKey (validate example_rnd NewConfig).1.2) = 64%nat /\
  String.length (EncryptKey (validate example_rnd NewConfig).1.2) = 32%nat.
Proof. vm_compute. split; reflexivity. Qed.

Example validate_short_auth_key :
  (validate example_rnd (set_AuthKey "too short" NewConfig)).1.1
  = Some ErrAuthKeyWrongSize.
Proof. vm_compute. reflexivity. Qed.

Example validate_short_encrypt_key :
  (validate example_rnd (set_EncryptKey "too short" NewConfig)).1.1
  = Some ErrEncyptKeyWrongSize.
Proof. vm_compute. reflexivity. Qed.

(** The maximum age is tested before the keys. *)
Example validate_max_age_before_keys :
  (validate example_rnd (set_MaxAge 0 (set_AuthKey "too short" NewConfig))).1.1
  = Some ErrMaxAgeTooShort.
Proof. vm_compute. reflexivity. Qed.

(** [TestInit] *)
Example Init_short_encrypt_key :
  (Init example_Seconds example_rnd (set_EncryptKey "too short" NewConfig)).1.1
  = Some ErrEncyptKeyWrongSize /\
  store (Init example_Seconds example_rnd
           (set_EncryptKey "too short" NewConfig)).1.2 = None.
Proof. vm_compute. split; reflexivity. Qed.

Example Init_default_ok :
  (Init example_Seconds example_rnd NewConfig).1.1 = None /\
  store example_config <> None.
Proof. vm_compute. split; [reflexivity|discriminate]. Qed.

(** [strings.TrimSpace] *)
Example TrimSpace_inner_space :
  strings.TrimSpace "  a b  " = "a b"%string /\
  strings.TrimSpace "   " = ""%string.
Proof. vm_compute. split; reflexivity. Qed.

(** [strconv] *)
Example FormatInt_examples :
  strconv.FormatInt 42 = "42"%string /\
  strconv.FormatInt 0 = "0"%string /\
  strconv.FormatInt (- 2 ^ 63) = "-9223372036854775808"%string.
Proof. vm_compute. repeat split; reflexivity. Qed.

Example ParseInt_examples :
  strconv.ParseInt "42" = (42, None) /\
  strconv.ParseInt "+007" = (7, None) /\
  strconv.ParseInt "-9223372036854775808" = (- 2 ^ 63, None) /\
  strconv.ParseInt "9223372036854775808"
  = (2 ^ 63 - 1, Some (NumErrRange "ParseInt" "9223372036854775808")) /\
  strconv.ParseInt "abc" = (0, Some (NumErrSyntax "ParseInt" "abc")) /\
  strconv.ParseInt "" = (0, Some (NumErrSyntax "ParseInt" "")).
Proof. vm_compute. repeat split; reflexivity. Qed.

(** [TestGetSession]: a request without cookie gets a new session. *)
Example GetSession_no_cookie :
  exists s r',
    GetSession example_Decode example_config request_plain
    = Ret (Some s, None, r') /\
    sessions.IsNew s = true /\ sessions.Values s = ∅.
Proof. eexists _, _. vm_compute. repeat split; reflexivity. Qed.

(** A cookie that verifies gives the session it holds. *)
Example GetSession_good_cookie :
  exists s r',
    GetSession example_Decode example_config request_kv
    = Ret (Some s, None, r') /\
    sessions.IsNew s = false /\
    sessions.Values s = {[ DStr "key" := DStr "value" ]}.
Proof. eexists _, _. vm_compute. repeat split; reflexivity. Qed.

(** [TestAddAndGetValue]: another key is not found. *)
Example GetValue_wrong_key :
  exists r',
    GetValue example_Decode example_config request_kv "wrong key"
    = Ret (""%string, Some ErrKeyNotFound, r').
Proof. eexists. vm_compute. reflexivity. Qed.

(** A cookie with a value that is no string ([request_int]): [GetValue]
    does not find it, [GetAllValues] panics on the type assertion. *)
Example GetValue_not_a_string :
  exists r',
    GetValue example_Decode example_config request_int "key"
    = Ret (""%string, Some ErrKeyNotFound, r').
Proof. eexists. vm_compute. reflexivity. Qed.

Example GetAllValues_not_a_string :
  GetAllValues example_Decode example_config request_int
  = Panic "interface conversion: interface {} is not string".
Proof. vm_compute. reflexivity. Qed.

(** [TestDestroy]: the cookie written has the maximum age -1;
    [TestExtend]: it has the configured one. *)
Example Destroy_cookie :
  exists r' c,
    Destroy example_Encode example_Decode example_Seconds example_config []
      request_kv = Ret (None, r', [c]) /\
    http.MaxAge c = -1 /\ http.Value c = "t-kv"%string.
Proof. eexists _, _. vm_compute. repeat split; reflexivity. Qed.

Example Extend_cookie :
  exists r' c,
    Extend example_Encode example_Decode example_Seconds example_config []
      request_kv = Ret (None, r', [c]) /\
    http.MaxAge c = 3600 /\ http.Value c = "t-kv"%string.
Proof. eexists _, _. vm_compute. repeat split; reflexivity. Qed.

(** A write through a configuration without store, on a request whose
    session is already loaded: the nil store is reached in [Save]. *)
Example AddValue_nil_store_loaded :
  AddValue example_Encode example_Decode NewConfig [] request_loaded
    "key" "value" = Panic nil_dereference.
Proof. vm_compute. reflexivity. Qed.

(** * More of the package *)

(** ** [validate] and [Init] *)

(** X1: the error of [validate], in the order of its tests: the maximum
    age, then the length of the authentication key, then that of the
    encryption key; an empty key is no error. *)
Theorem validate_error (rnd : securecookie.Entropy) (c : Config) :
  (validate rnd c).1.1 =
    let a := String.length (AuthKey c) in
    let e := String.length (EncryptKey c) in
    if MaxAge c <? 1 * Second then Some ErrMaxAgeTooShort
    else if negb (Nat.eqb a 0 || Nat.eqb a 64) then Some ErrAuthKeyWrongSize
    else if negb (Nat.eqb e 0 || Nat.eqb e 32) then Some ErrEncyptKeyWrongSize
    else None.
Proof.
  destruct c as [d p m h s ss n a e st]. cbv zeta. validate_cases;
    reflect_tests; unfold authKeyLength, encryptKeyLength in *;
    try (exfalso; lia);
    repeat match goal with H : String.length _ = _ |- _ => rewrite H end;
    subst; cbn [Nat.eqb orb negb]; try reflexivity;
    repeat match goal with
           | H : S ?x <> _ |- _ =>
               apply Nat.eqb_neq in H; cbn [Nat.eqb] in H; rewrite H
           end; reflexivity.
Qed.

(** X2: the same-site mode after [validate]: a mode outside 1..4 becomes
    the strict mode, one inside is kept -- unless [validate] has stopped at
    the maximum age, which is tested first and leaves the mode as it is. *)
Theorem validate_same_site (rnd : securecookie.Entropy) (c : Config) :
  SameSite (validate rnd c).1.2 =
    if MaxAge c <? 1 * Second then SameSite c
    else if (SameSite c <? 1) || (SameSite c >? 4)
         then http.SameSiteStrictMode else SameSite c.
Proof.
  destruct c as [d p m h s ss n a e st]. validate_cases; reflexivity.
Qed.

Lemma string_length_zero (s : string) :
  String.length s = 0%nat -> s = ""%string.
Proof. destruct s; [reflexivity|discriminate]. Qed.

(** X3: what [validate] never does.  On every path it leaves [MaxAge],
    [HTTPOnly], [Secure], [CookieName] and the store as they are; a key that
    is not empty is never overwritten, whatever its length; and with both
    keys given, the random source is not read. *)
Theorem validate_keeps (rnd : securecookie.Entropy) (c : Config) :
  let '(_, c', rnd') := validate rnd c in
  MaxAge c' = MaxAge c /\ HTTPOnly c' = HTTPOnly c /\ Secure c' = Secure c /\
  CookieName c' = CookieName c /\ store c' = store c /\
  (AuthKey c = ""%string \/ AuthKey c' = AuthKey c) /\
  (EncryptKey c = ""%string \/ EncryptKey c' = EncryptKey c) /\
  (AuthKey c = ""%string \/ EncryptKey c = ""%string \/ rnd' = rnd).
Proof.
  destruct c as [d p m h s ss n a e st]. validate_cases;
    repeat match goal with
           | H : String.length ?k = 0%nat |- _ =>
               apply string_length_zero in H; subst k
           end; auto 12.
Qed.

Section InitFacts.

Variable int_Seconds : Z -> Z.

Lemma valid_set_store (st : option sessions.CookieStore) (c : Config) :
  valid c -> valid (set_store st c).
Proof. destruct c. exact (fun H => H). Qed.

Lemma Init_ok_inv (rnd rnd' : securecookie.Entropy) (c c' : Config) :
  Init int_Seconds rnd c = (None, c', rnd') ->
  exists cv, validate rnd c = (None, cv, rnd') /\
             c' = set_store (Some (binding int_Seconds cv)) cv.
Proof.
  unfold Init. destruct (validate rnd c) as [[[e|] cv] rnd1]; [discriminate|].
  intros [= <- <-]. exists cv. split; reflexivity.
Qed.

(** X4: the outcome of [Init].  When it succeeds, every field of the
    configuration is legal and the store is bound to the two keys the
    configuration holds now (the given ones or the generated ones) and to
    the options derived from its fields.  When it fails, the error is that
    of [validate] and the store is left as it was. *)
Theorem Init_outcome (rnd : securecookie.Entropy) (c : Config) :
  match Init int_Seconds rnd c with
  | (None, c', _) =>
      valid c' /\ store c' = Some (binding int_Seconds c')
  | (Some e, c', _) =>
      (validate rnd c).1.1 = Some e /\ store c' = store c
  end.
Proof.
  unfold Init. pose proof (validate_early_fields rnd c) as Hkeep.
  destruct (validate rnd c) as [[[e|] cv] rnd1] eqn:E.
  - split; [reflexivity|]. apply Hkeep.
  - apply validate_ok_valid in E. split; [now apply valid_set_store|].
    destruct cv; reflexivity.
Qed.

(** X5: [Init] on a configuration that [Init] has set up changes nothing:
    it succeeds, returns the configuration as it is, store included, and
    reads no randomness. *)
Theorem Init_idempotent (rnd rnd' : securecookie.Entropy) (c c' : Config)
    (Hok : Init int_Seconds rnd c = (None, c', rnd')) :
  forall rnd2, Init int_Seconds rnd2 c' = (None, c', rnd2).
Proof.
  intros rnd2. apply Init_ok_inv in Hok. destruct Hok as (cv & Hv & ->).
  apply validate_ok_valid in Hv.
  unfold Init. rewrite (validate_valid rnd2 _ (valid_set_store _ cv Hv)).
  destruct cv; reflexivity.
Qed.

End InitFacts.

(** ** The accessors, one after another *)

Section AccessorFacts.

Variable Encode :
  securecookie.SecureCookie -> string -> gmap Dyn Dyn -> string + string.
Variable Decode :
  securecookie.SecureCookie -> string -> string -> gmap Dyn Dyn + string.
Variable int_Seconds : Z -> Z.

Lemma AddValue_shape (c : Config) (w : http.ResponseWriter)
    (r : sessions.Request) (key value : string) :
  AddValue Encode Decode c w r key value =
    write_and_save Encode Decode
      (fun s => sessions.set_Values
                  (<[DStr key := DStr value]> (sessions.Values s)) s) c w r.
Proof. reflexivity. Qed.

Lemma Extend_shape (c : Config) (w : http.ResponseWriter)
    (r : sessions.Request) :
  Extend Encode Decode int_Seconds c w r =
    write_and_save Encode Decode
      (sessions.set_Opts (getOptions int_Seconds c)) c w r.
Proof. reflexivity. Qed.

Lemma Destroy_shape (c : Config) (w : http.ResponseWriter)
    (r : sessions.Request) :
  Destroy Encode Decode int_Seconds c w r =
    write_and_save Encode Decode
      (sessions.set_Opts
         (sessions.set_MaxAge (-1) (getOptions int_Seconds c))) c w r.
Proof.
  unfold Destroy, write_and_save.
  destruct (GetSession Decode c r) as [[[so e] r0]|]; [|reflexivity].
  cbn. destruct e; [reflexivity|]. destruct so; reflexivity.
Qed.

(** A second [GetSession] on the request finds what the first one left. *)
Lemma GetSession_again (c : Config) (r r0 : sessions.Request)
    (so : option sessions.Session) (e : option error) :
  GetSession Decode c r = Ret (so, e, r0) ->
  GetSession Decode c r0 = Ret (so, e, r0).
Proof.
  intros H. destruct so as [s|].
  - apply GetSession_post in H. destruct H as (Hv & Hr & Hs).
    now apply Registry_Get_cached.
  - revert H. unfold GetSession, sessions.CookieStore_Get, sessions.Registry_Get.
    destruct (http.isCookieNameValid (CookieName c)); cbn [negb].
    + destruct (sessions.registry r !! CookieName c) as [[s1 e1]|];
        [discriminate|].
      destruct (sessions.CookieStore_New Decode (store c) r (CookieName c))
        as [[s1 e1]|]; discriminate.
    + intros [= <- <-]. reflexivity.
Qed.

(** The writers on a request whose session loads. *)
Lemma write_and_save_loaded (write : sessions.Session -> sessions.Session)
    (c : Config) (w : http.ResponseWriter) (r r0 : sessions.Request)
    (s : sessions.Session) :
  GetSession Decode c r = Ret (Some s, None, r0) ->
  write_and_save Encode Decode write c w r =
    '(err, w') ← sessions.Save Encode (write s) w;
    Ret (err, sessions.commit (CookieName c) (write s) r0, w').
Proof. intros H. unfold write_and_save. rewrite H. reflexivity. Qed.

(** The writers on a request whose session does not load. *)
Lemma write_and_save_error (write : sessions.Session -> sessions.Session)
    (c : Config) (w : http.ResponseWriter) (r r0 : sessions.Request)
    (so : option sessions.Session) (e : error) :
  GetSession Decode c r = Ret (so, Some e, r0) ->
  write_and_save Encode Decode write c w r = Ret (Some e, r0, w).
Proof. intros H. unfold write_and_save. rewrite H. reflexivity. Qed.

Lemma Save_cases (s : sessions.Session) (w : http.ResponseWriter) :
  match sessions.store s with
  | None => sessions.Save Encode s w = Panic nil_dereference
  | Some cs =>
      (exists err, sessions.Save Encode s w = Ret (Some err, w)) \/
      (exists encoded,
          securecookie.EncodeMulti Encode (sessions.name s)
            (sessions.Values s) (sessions.Codecs cs) = (encoded, None) /\
          sessions.Save Encode s w =
            Ret (None, w ++ [sessions.NewCookie (sessions.name s) encoded
                               (sessions.Opts s)]))
  end.
Proof.
  unfold sessions.Save, sessions.CookieStore_Save.
  destruct (sessions.store s) as [cs|]; [|reflexivity].
  destruct (securecookie.EncodeMulti Encode _ _ _) as [encoded [err|]]; eauto.
Qed.

(** After a writer has returned, the registry holds the session as
    written (when it loaded), or what the load left (when it did not). *)
Lemma write_and_save_inv (write : sessions.Session -> sessions.Session)
    (c : Config) (w w' : http.ResponseWriter) (r r' : sessions.Request)
    (err : option error) :
  write_and_save Encode Decode write c w r = Ret (err, r', w') ->
  (exists s r0,
      GetSession Decode c r = Ret (Some s, None, r0) /\
      r' = sessions.commit (CookieName c) (write s) r0 /\
      sessions.Save Encode (write s) w = Ret (err, w')) \/
  (exists so e,
      GetSession Decode c r = Ret (so, Some e, r') /\ err = Some e /\ w' = w).
Proof.
  unfold write_and_save.
  destruct (GetSession Decode c r) as [[[so e] r0]|]; [|discriminate].
  cbn. destruct e as [e|].
  - intros [= <- <- <-]. right. eauto.
  - destruct so as [s|]; [|discriminate]. cbn.
    destruct (sessions.Save Encode (write s) w) as [[e' w1]|] eqn:E;
      [|discriminate].
    cbn. intros [= <- <- <-]. left. eauto 6.
Qed.

(** [GetValue] after a writer that leaves the store and the values under
    [key] of the session alone. *)
Lemma GetValue_after_write (write : sessions.Session -> sessions.Session)
    (c : Config) (w w' : http.ResponseWriter) (r r' : sessions.Request)
    (err : option error) (key : string) :
  (forall s, sessions.store (write s) = sessions.store s) ->
  (forall s, sessions.Values (write s) !! DStr key
             = sessions.Values s !! DStr key) ->
  write_and_save Encode Decode write c w r = Ret (err, r', w') ->
  answer (GetValue Decode c r' key) = answer (GetValue Decode c r key).
Proof.
  intros Hstore Hval H. apply write_and_save_inv in H.
  destruct H as [(s & r0 & Hget & -> & _)|(so & e & Hget & _)].
  - rewrite (GetValue_of_GetSession _ _ _ _ _ _ Hget).
    apply GetSession_post in Hget. destruct Hget as (Hv & Hr & Hs).
    erewrite GetValue_cached;
      [| exact Hv | eapply commit_lookup, Hr | now rewrite Hstore].
    rewrite Hval. destruct (as_string _); reflexivity.
  - unfold GetValue. rewrite (GetSession_again _ _ _ _ _ Hget), Hget.
    reflexivity.
Qed.

End AccessorFacts.

Section AccessorTheorems.

Variable Encode :
  securecookie.SecureCookie -> string -> gmap Dyn Dyn -> string + string.
Variable Decode :
  securecookie.SecureCookie -> string -> string -> gmap Dyn Dyn + string.
Variable int_Seconds : Z -> Z.

(** [GetSession] on an invalid cookie name, whatever the store. *)
Lemma GetSession_invalid_name (c : Config) (r : sessions.Request) :
  http.isCookieNameValid (CookieName c) = false ->
  GetSession Decode c r = Ret (None, Some (ErrCookieName (CookieName c)), r).
Proof.
  intros H. unfold GetSession, sessions.CookieStore_Get, sessions.Registry_Get.
  rewrite H. reflexivity.
Qed.

(** [GetSession] with a store: it returns, and with a nil error it returns
    a session bound to the store. *)
Lemma GetSession_with_store (c : Config) (cs : sessions.CookieStore)
    (r : sessions.Request) :
  store c = Some cs ->
  exists so e r',
    GetSession Decode c r = Ret (so, e, r') /\
    (e = None -> exists s, so = Some s /\ sessions.store s = Some cs).
Proof.
  intros Hst. unfold GetSession, sessions.CookieStore_Get, sessions.Registry_Get.
  rewrite Hst.
  destruct (http.isCookieNameValid (CookieName c)); cbn [negb];
    [|eexists _, _, _; split; [reflexivity|discriminate]].
  destruct (sessions.registry r !! CookieName c) as [[s1 e1]|].
  - eexists _, _, _. split; [reflexivity|]. intros _. eauto.
  - unfold sessions.CookieStore_New.
    destruct (sessions.Cookie (sessions.Cookies r) (CookieName c)) as [v|];
      [destruct (securecookie.DecodeMulti Decode _ _ _) as [[dst|] [e|]]|];
      cbn; eexists _, _, _; (split; [reflexivity|]); intros _; eauto.
Qed.

(** The first [GetSession] of a request, with a store and a valid name: the
    session has the name asked for and the options of the store. *)
Lemma GetSession_fresh (c : Config) (cs : sessions.CookieStore)
    (r : sessions.Request) :
  store c = Some cs ->
  http.isCookieNameValid (CookieName c) = true ->
  sessions.registry r !! CookieName c = None ->
  exists s e r',
    GetSession Decode c r = Ret (Some s, e, r') /\
    sessions.name s = CookieName c /\
    sessions.Opts s = sessions.store_Options cs /\
    (forall value,
        sessions.Cookie (sessions.Cookies r) (CookieName c) = Some value ->
        forall e',
          securecookie.DecodeMulti Decode (CookieName c) value
            (sessions.Codecs cs) = (None, Some e') ->
          e = Some e').
Proof.
  intros Hst Hv Hf.
  unfold GetSession, sessions.CookieStore_Get, sessions.Registry_Get,
    sessions.CookieStore_New.
  rewrite Hst, Hv, Hf. cbn [negb].
  destruct (sessions.Cookie (sessions.Cookies r) (CookieName c)) as [v|].
  - destruct (securecookie.DecodeMulti Decode _ _ _) as [[dst|] [e|]] eqn:E;
      cbn; eexists _, _, _; (split; [reflexivity|]); cbn;
      (split; [reflexivity|]); (split; [reflexivity|]);
      intros value [= <-] e' E'; rewrite E in E'; congruence.
  - cbn. eexists _, _, _. split; [reflexivity|]. cbn.
    repeat split. discriminate.
Qed.

(** X6: with a store that is set up, [GetSession], [GetValue], [AddValue],
    [Extend] and [Destroy] return on every request: they may return an
    error, they do not panic. *)
Theorem store_set_no_panic (c : Config) (cs : sessions.CookieStore)
    (r : sessions.Request) (w : http.ResponseWriter) (key value : string)
    (Hstore : store c = Some cs) :
  (exists out, GetSession Decode c r = Ret out) /\
  (exists out, GetValue Decode c r key = Ret out) /\
  (exists out, AddValue Encode Decode c w r key value = Ret out) /\
  (exists out, Extend Encode Decode int_Seconds c w r = Ret out) /\
  (exists out, Destroy Encode Decode int_Seconds c w r = Ret out).
Proof.
  destruct (GetSession_with_store c cs r Hstore) as (so & e & r0 & Hget & Hs).
  assert (Hw : forall write,
             (forall s, sessions.store (write s) = sessions.store s) ->
             exists out, write_and_save Encode Decode write c w r = Ret out).
  { intros write Hkeep. destruct e as [e|].
    - rewrite (write_and_save_error _ _ _ _ _ _ _ _ _ Hget). eauto.
    - destruct (Hs eq_refl) as (s & -> & Hss).
      rewrite (write_and_save_loaded _ _ _ _ _ _ _ _ Hget).
      pose proof (Save_cases Encode (write s) w) as HS.
      rewrite Hkeep, Hss in HS.
      destruct HS as [[err ->]|(enc & _ & ->)]; cbn; eauto. }
  split; [eauto|]. split.
  - unfold GetValue. rewrite Hget. cbn. destruct e; [eauto|].
    destruct (Hs eq_refl) as (s & -> & _). cbn. destruct (as_string _); eauto.
  - rewrite AddValue_shape, (Extend_shape Encode Decode int_Seconds),
      (Destroy_shape Encode Decode int_Seconds).
    repeat split; apply Hw; intros s; reflexivity.
Qed.

(** The loop of [GetAllValues] stops with a panic at an entry whose key or
    value is no string. *)
Lemma convert_entries_panics (l : list (Dyn * Dyn)) (kv : gmap string string) :
  (exists k v, (k, v) ∈ l /\ ~ exists ks vs, k = DStr ks /\ v = DStr vs) ->
  exists msg, convert_entries l kv = Panic msg.
Proof.
  revert kv. induction l as [|[k v] l IH]; intros kv (k0 & v0 & Hin & Hbad).
  - inversion Hin.
  - destruct k as [ks| |]; [destruct v as [vs| |]|..]; cbn; eauto.
    apply IH. exists k0, v0. split; [|exact Hbad].
    apply elem_of_cons in Hin. destruct Hin as [[= -> ->]|Hin]; [|exact Hin].
    exfalso. apply Hbad. eauto.
Qed.

Lemma entries_strings_dec (l : list (Dyn * Dyn)) :
  (forall k v, (k, v) ∈ l -> exists ks vs, k = DStr ks /\ v = DStr vs) \/
  (exists k v, (k, v) ∈ l /\ ~ exists ks vs, k = DStr ks /\ v = DStr vs).
Proof.
  induction l as [|[k v] l [IH|(k0 & v0 & Hin & Hbad)]].
  - left. intros k v H. inversion H.
  - destruct k as [ks| |]; [destruct v as [vs| |]|..];
      try (right; eexists _, _; split; [left|];
           intros (ks' & vs' & ? & ?); discriminate).
    left. intros k v Hin. apply elem_of_cons in Hin.
    destruct Hin as [[= -> ->]|Hin]; eauto.
  - right. exists k0, v0. split; [now right|exact Hbad].
Qed.

(** X7: [GetAllValues] panics exactly on a session that loads without error
    and holds an entry whose key or value is no string (the store being set
    up); on every other request it returns. *)
Theorem GetAllValues_panics_iff (c : Config) (cs : sessions.CookieStore)
    (r : sessions.Request) (Hstore : store c = Some cs) :
  (exists msg, GetAllValues Decode c r = Panic msg) <->
  (exists s r',
      GetSession Decode c r = Ret (Some s, None, r') /\
      ~ all_strings (sessions.Values s)).
Proof.
  destruct (GetSession_with_store c cs r Hstore) as (so & e & r0 & Hget & Hs).
  unfold GetAllValues. rewrite Hget. cbn. destruct e as [e|].
  - split; [intros [msg H]; discriminate|].
    intros (s & r' & [=] & _).
  - destruct (Hs eq_refl) as (s & -> & _). cbn.
    destruct (entries_strings_dec (map_to_list (sessions.Values s)))
      as [Hall|Hbad].
    + destruct (convert_entries_strings (map_to_list (sessions.Values s)) ∅)
        as (kv & Hrun & _); [apply NoDup_fst_map_to_list|exact Hall|].
      rewrite Hrun. cbn. split; [intros [msg H]; discriminate|].
      intros (s' & r' & [= <- <-] & Hno). exfalso. apply Hno.
      intros k v Hkv. apply Hall. now apply elem_of_map_to_list.
    + destruct (convert_entries_panics _ ∅ Hbad) as [msg Hrun].
      rewrite Hrun. cbn. split; [|eauto]. intros _. exists s, r0.
      split; [reflexivity|]. intros Hall.
      destruct Hbad as (k & v & Hin & Hbad). apply Hbad.
      apply (Hall k v). now apply elem_of_map_to_list.
Qed.

(** X8: a cookie that fails verification blocks the request.  On the first
    access of a request whose session cookie the codecs reject, every
    accessor returns the codecs' error; [AddValue], [Extend] and [Destroy]
    write no cookie; and the request stays that way: the same calls on the
    request they leave return the same error. *)
Theorem rejected_cookie_blocks (c : Config) (cs : sessions.CookieStore)
    (r : sessions.Request) (w : http.ResponseWriter) (key value cookie : string)
    (e : error)
    (Hstore : store c = Some cs)
    (Hname : http.isCookieNameValid (CookieName c) = true)
    (Hfresh : sessions.registry r !! CookieName c = None)
    (Hcookie : sessions.Cookie (sessions.Cookies r) (CookieName c) = Some cookie)
    (Hreject : securecookie.DecodeMulti Decode (CookieName c) cookie
                 (sessions.Codecs cs) = (None, Some e)) :
  exists r',
    AddValue Encode Decode c w r key value = Ret (Some e, r', w) /\
    Extend Encode Decode int_Seconds c w r = Ret (Some e, r', w) /\
    Destroy Encode Decode int_Seconds c w r = Ret (Some e, r', w) /\
    GetValue Decode c r key = Ret (""%string, Some e, r') /\
    GetAllValues Decode c r = Ret (∅, Some e, r') /\
    GetUserID Decode c r = Ret (0, Some e, r') /\
    AddValue Encode Decode c w r' key value = Ret (Some e, r', w) /\
    Destroy Encode Decode int_Seconds c w r' = Ret (Some e, r', w) /\
    GetValue Decode c r' key = Ret (""%string, Some e, r').
Proof.
  destruct (GetSession_fresh c cs r Hstore Hname Hfresh)
    as (s & e0 & r' & Hget & _ & _ & He).
  rewrite (He cookie Hcookie e Hreject) in Hget. clear He.
  pose proof (GetSession_again Decode _ _ _ _ _ Hget) as Hget'.
  exists r'.
  rewrite !AddValue_shape, (Extend_shape Encode Decode int_Seconds),
    !(Destroy_shape Encode Decode int_Seconds).
  rewrite !(write_and_save_error _ _ _ _ _ _ _ _ _ Hget),
    !(write_and_save_error _ _ _ _ _ _ _ _ _ Hget').
  unfold GetUserID, GetAllValues, GetValue. rewrite Hget, Hget'.
  repeat split; reflexivity.
Qed.

End AccessorTheorems.

Section AccessorOrder.

Variable Encode :
  securecookie.SecureCookie -> string -> gmap Dyn Dyn -> string + string.
Variable Decode :
  securecookie.SecureCookie -> string -> string -> gmap Dyn Dyn + string.
Variable int_Seconds : Z -> Z.

(** The cookie a writer writes: named like the session, with the options of
    the session as written. *)
Lemma write_and_save_cookie (write : sessions.Session -> sessions.Session)
    (c : Config) (w w' : http.ResponseWriter) (r r0 r' : sessions.Request)
    (s : sessions.Session) :
  GetSession Decode c r = Ret (Some s, None, r0) ->
  write_and_save Encode Decode write c w r = Ret (None, r', w') ->
  exists encoded,
    w' = w ++ [sessions.NewCookie (sessions.name (write s)) encoded
                 (sessions.Opts (write s))].
Proof.
  intros Hget H. rewrite (write_and_save_loaded _ _ _ _ _ _ _ _ Hget) in H.
  pose proof (Save_cases Encode (write s) w) as HS.
  destruct (sessions.store (write s)) as [cs|].
  - destruct HS as [[err HS]|(enc & _ & HS)]; rewrite HS in H; cbn in H.
    + discriminate.
    + injection H as _ <-. eauto.
  - rewrite HS in H. discriminate.
Qed.

(** X9: the options of the cookie [AddValue] writes.  On the first access of
    a request they are the options of the store, that is the ones [Init]
    derived; the fields the configuration has at the time of the call are
    not read.  ([Extend] and [Destroy] do read them.) *)
Theorem AddValue_cookie_options (c : Config) (cs : sessions.CookieStore)
    (r r' : sessions.Request) (w w' : http.ResponseWriter) (key value : string)
    (Hstore : store c = Some cs)
    (Hname : http.isCookieNameValid (CookieName c) = true)
    (Hfresh : sessions.registry r !! CookieName c = None)
    (Hadd : AddValue Encode Decode c w r key value = Ret (None, r', w')) :
  exists encoded,
    w' = w ++ [sessions.NewCookie (CookieName c) encoded
                 (sessions.store_Options cs)].
Proof.
  destruct (GetSession_fresh Decode c cs r Hstore Hname Hfresh)
    as (s & e & r0 & Hget & Hn & Ho & _).
  rewrite AddValue_shape in Hadd. destruct e as [e|].
  - rewrite (write_and_save_error _ _ _ _ _ _ _ _ _ Hget) in Hadd.
    discriminate.
  - destruct (write_and_save_cookie _ _ _ _ _ _ _ _ Hget Hadd) as [enc ->].
    exists enc. cbn. now rewrite Hn, Ho.
Qed.

(** X10: [Destroy] marks the session for the rest of the request.  A value
    added after [Destroy] on the request [Destroy] leaves is sealed into a
    cookie that has the maximum age -1 too. *)
Theorem AddValue_after_Destroy (c : Config)
    (r r1 r2 : sessions.Request) (w w1 w2 w3 : http.ResponseWriter)
    (err : option error) (key value : string)
    (Hdestroy : Destroy Encode Decode int_Seconds c w r = Ret (err, r1, w1))
    (Hadd : AddValue Encode Decode c w2 r1 key value = Ret (None, r2, w3)) :
  exists name encoded,
    w3 = w2 ++ [sessions.NewCookie name encoded
                  (sessions.set_MaxAge (-1) (getOptions int_Seconds c))].
Proof.
  rewrite (Destroy_shape Encode Decode int_Seconds) in Hdestroy.
  rewrite AddValue_shape in Hadd.
  apply write_and_save_inv in Hdestroy.
  destruct Hdestroy as [(s & r0 & Hget & -> & _)|(so & e & Hget & _ & _)].
  - apply GetSession_post in Hget. destruct Hget as (Hv & Hr & Hs).
    assert (Hget1 : GetSession Decode c
                      (sessions.commit (CookieName c)
                         (sessions.set_Opts
                            (sessions.set_MaxAge (-1) (getOptions int_Seconds c))
                            s) r0)
                    = Ret (Some (sessions.set_Opts
                                   (sessions.set_MaxAge (-1)
                                      (getOptions int_Seconds c)) s),
                           None,
                           sessions.commit (CookieName c)
                             (sessions.set_Opts
                                (sessions.set_MaxAge (-1)
                                   (getOptions int_Seconds c)) s) r0)).
    { apply Registry_Get_cached; [exact Hv| |exact Hs].
      eapply commit_lookup, Hr. }
    destruct (write_and_save_cookie _ _ _ _ _ _ _ _ Hget1 Hadd) as [enc ->].
    eexists _, enc. reflexivity.
  - apply (GetSession_again Decode) in Hget.
    rewrite (write_and_save_error _ _ _ _ _ _ _ _ _ Hget) in Hadd.
    discriminate.
Qed.

(** X11: [AddValue] writes to the session before it saves it.  When the
    session loads, the value is in the session of the request afterwards
    also when the save fails -- [AddValue] returns the error of the save,
    writes no cookie, and [GetValue] on the request returns the value. *)
Theorem AddValue_value_stays (c : Config)
    (r r0 r' : sessions.Request) (w w' : http.ResponseWriter)
    (s : sessions.Session) (err : option error) (key value : string)
    (Hget : GetSession Decode c r = Ret (Some s, None, r0))
    (Hadd : AddValue Encode Decode c w r key value = Ret (err, r', w')) :
  GetValue Decode c r' key = Ret (value, None, r') /\
  (err <> None -> w' = w).
Proof.
  rewrite AddValue_shape in Hadd.
  rewrite (write_and_save_loaded _ _ _ _ _ _ _ _ Hget) in Hadd.
  apply GetSession_post in Hget. destruct Hget as (Hv & Hr & Hs).
  set (s1 := sessions.set_Values _ s) in *.
  pose proof (Save_cases Encode s1 w) as HS.
  destruct (sessions.store s1) as [cs|] eqn:Hs1;
    [|rewrite HS in Hadd; discriminate].
  assert (Hread : GetValue Decode c (sessions.commit (CookieName c) s1 r0) key
                  = Ret (value, None, sessions.commit (CookieName c) s1 r0)).
  { erewrite GetValue_cached;
      [| exact Hv | eapply commit_lookup, Hr | exact Hs].
    subst s1. cbn. rewrite lookup_insert_eq. reflexivity. }
  destruct HS as [[e HS]|(enc & _ & HS)]; rewrite HS in Hadd; cbn in Hadd;
    injection Hadd as <- <- <-; (split; [exact Hread|]); congruence.
Qed.

(** X12: [AddValue] leaves the other keys alone: [GetValue] for another key
    answers after [AddValue] what it answered before. *)
Theorem AddValue_other_key (c : Config)
    (r r' : sessions.Request) (w w' : http.ResponseWriter)
    (err : option error) (key value other : string)
    (Hne : other <> key)
    (Hadd : AddValue Encode Decode c w r key value = Ret (err, r', w')) :
  answer (GetValue Decode c r' other) = answer (GetValue Decode c r other).
Proof.
  rewrite AddValue_shape in Hadd.
  eapply GetValue_after_write; [| |exact Hadd]; intros s0; [reflexivity|].
  cbn. apply lookup_insert_ne. congruence.
Qed.

(** X13: [Extend] and [Destroy] leave the values of the session alone:
    [GetValue] answers after them what it answered before -- also after
    [Destroy], which only sets the maximum age of the cookie. *)
Theorem Extend_Destroy_keep_values (c : Config)
    (r r' : sessions.Request) (w w' : http.ResponseWriter)
    (err : option error) (key : string)
    (Hrun : Extend Encode Decode int_Seconds c w r = Ret (err, r', w') \/
            Destroy Encode Decode int_Seconds c w r = Ret (err, r', w')) :
  answer (GetValue Decode c r' key) = answer (GetValue Decode c r key).
Proof.
  destruct Hrun as [H|H];
    [rewrite (Extend_shape Encode Decode int_Seconds) in H
    |rewrite (Destroy_shape Encode Decode int_Seconds) in H];
    (eapply GetValue_after_write; [| |exact H]; intros s0; reflexivity).
Qed.

(** X14: reading is repeatable: [GetValue], for any key, answers on the
    request a [GetValue] leaves what it answers on the request itself. *)
Theorem GetValue_repeatable (c : Config) (r r' : sessions.Request)
    (key other : string) (value : string) (err : option error)
    (Hread : GetValue Decode c r other = Ret (value, err, r')) :
  answer (GetValue Decode c r' key) = answer (GetValue Decode c r key).
Proof.
  revert Hread. unfold GetValue.
  destruct (GetSession Decode c r) as [[[so e] r0]|] eqn:Hget; [|discriminate].
  pose proof (GetSession_again Decode _ _ _ _ _ Hget) as Hget'.
  cbn. destruct e as [e|].
  - intros [= _ _ <-]. rewrite Hget'. reflexivity.
  - destruct so as [s|]; [|discriminate]. cbn.
    destruct (as_string (sessions.Values s !! DStr other));
      intros [= _ _ <-]; rewrite Hget'; reflexivity.
Qed.

(** X15: the cookie name is not validated.  [Init] does not look at it: its
    error is the same whatever the name.  With a name that is no token every
    accessor returns the cookie-name error of the registry, on every request
    and with or without store; nothing is written and nothing panics. *)
Theorem invalid_cookie_name (c : Config) (r : sessions.Request)
    (w : http.ResponseWriter) (key value : string)
    (Hname : http.isCookieNameValid (CookieName c) = false) :
  (forall rnd name,
      (Init int_Seconds rnd (set_CookieName name c)).1.1
      = (Init int_Seconds rnd c).1.1) /\
  GetSession Decode c r
  = Ret (None, Some (ErrCookieName (CookieName c)), r) /\
  AddValue Encode Decode c w r key value
  = Ret (Some (ErrCookieName (CookieName c)), r, w) /\
  GetValue Decode c r key
  = Ret (""%string, Some (ErrCookieName (CookieName c)), r) /\
  GetAllValues Decode c r = Ret (∅, Some (ErrCookieName (CookieName c)), r) /\
  Extend Encode Decode int_Seconds c w r
  = Ret (Some (ErrCookieName (CookieName c)), r, w) /\
  Destroy Encode Decode int_Seconds c w r
  = Ret (Some (ErrCookieName (CookieName c)), r, w).
Proof.
  pose proof (GetSession_invalid_name Decode c r Hname) as Hget.
  split.
  - intros rnd name. unfold Init.
    assert (E : validate rnd (set_CookieName name c)
                = ((validate rnd c).1.1,
                   set_CookieName name (validate rnd c).1.2,
                   (validate rnd c).2)).
    { destruct c as [d p m h s ss n a e st]. validate_cases; reflexivity. }
    rewrite E. destruct (validate rnd c) as [[[e|] cv] rnd1]; reflexivity.
  - unfold AddValue, GetValue, GetAllValues, Extend, Destroy. rewrite Hget.
    repeat split; reflexivity.
Qed.

(** X16: rotating the keys.  After [Keys], and until [Init] is run again,
    the store is the old one and every accessor does what it did before.
    [Init] on the configuration with new keys of 64 and 32 bytes succeeds,
    keeps the keys as given and binds the store to them. *)
Theorem key_rotation (rnd rnd1 : securecookie.Entropy) (c c1 : Config)
    (authKey encryptkey : string)
    (Hinit : Init int_Seconds rnd c = (None, c1, rnd1))
    (Hauth : String.length authKey = 64%nat)
    (Hencrypt : String.length encryptkey = 32%nat) :
  store (pkg.Keys authKey encryptkey c1) = store c1 /\
  (forall r w key value,
      GetSession Decode (pkg.Keys authKey encryptkey c1) r
      = GetSession Decode c1 r /\
      GetValue Decode (pkg.Keys authKey encryptkey c1) r key
      = GetValue Decode c1 r key /\
      AddValue Encode Decode (pkg.Keys authKey encryptkey c1) w r key value
      = AddValue Encode Decode c1 w r key value /\
      Extend Encode Decode int_Seconds (pkg.Keys authKey encryptkey c1) w r
      = Extend Encode Decode int_Seconds c1 w r /\
      Destroy Encode Decode int_Seconds (pkg.Keys authKey encryptkey c1) w r
      = Destroy Encode Decode int_Seconds c1 w r) /\
  forall rnd2,
    exists c2,
      Init int_Seconds rnd2 (pkg.Keys authKey encryptkey c1)
      = (None, c2, rnd2) /\
      AuthKey c2 = authKey /\ EncryptKey c2 = encryptkey /\
      store c2 = Some (binding int_Seconds c2) /\
      sessions.Codecs (binding int_Seconds c2)
      = [securecookie.New authKey encryptkey].
Proof.
  apply Init_ok_inv in Hinit. destruct Hinit as (cv & Hv & ->).
  apply validate_ok_valid in Hv.
  split; [destruct cv; reflexivity|]. split.
  - intros r w key value. destruct cv; repeat split; reflexivity.
  - intros rnd2. unfold Init.
    rewrite (validate_valid rnd2).
    + eexists. split; [reflexivity|]. destruct cv; repeat split; reflexivity.
    + destruct cv. unfold valid in *. cbn in *. tauto.
Qed.

End AccessorOrder.

(** ** Numerals out of range *)

Module strconv_range.
Import strconv strconv_facts.

Lemma ParseUint_loop_overflow (s0 : string) (cs : list ascii) (n v : Z) :
  0 <= n < 2 ^ 64 -> decimal_digits cs n = Some v -> 2 ^ 64 <= v ->
  ParseUint_loop s0 cs n = (maxUint64, Some (NumErrRange "ParseUint" s0)).
Proof.
  revert n. induction cs as [|c cs IH]; intros n Hn Hv Hbig; simpl in *.
  - injection Hv as <-. lia.
  - destruct (digit c) as [d|] eqn:Ed; [|discriminate].
    pose proof (digit_range c d Ed) as Hd. consts.
    destruct (n >=? 1844674407370955162) eqn:E1; [reflexivity|].
    rewrite (Z.mod_small (n * 10)) by lia.
    destruct (Z_lt_le_dec (n * 10 + d) 18446744073709551616) as [Hs|Hb].
    + rewrite (Z.mod_small (n * 10 + d)) by lia.
      destruct (n * 10 + d <? n * 10) eqn:E2; [lia|].
      destruct (n * 10 + d >? 18446744073709551616 - 1) eqn:E3; [lia|].
      cbn [orb]. apply IH; [lia| |lia].
      rewrite <- Hv. f_equal. lia.
    + assert (Ew : (n * 10 + d) mod 18446744073709551616
                   = n * 10 + d - 18446744073709551616).
      { rewrite <- (Z.mod_add _ (-1)) by lia. apply Z.mod_small. lia. }
      rewrite Ew.
      destruct (n * 10 + d - 18446744073709551616 <? n * 10) eqn:E2; [|lia].
      reflexivity.
Qed.

(** [ParseUint] on digits: the number, or the range error with the largest
    [uint64]. *)
Lemma ParseUint_digits (cs : list ascii) (v : Z) :
  cs <> [] -> decimal_digits cs 0 = Some v ->
  ParseUint cs =
    if v <? 2 ^ 64 then (v, None)
    else (maxUint64, Some (NumErrRange "ParseUint" (bytes.to_string cs))).
Proof.
  intros Hne Hv. destruct (v <? 2 ^ 64) eqn:E.
  - apply Z.ltb_lt in E. apply ParseUint_spec. auto.
  - apply Z.ltb_ge in E. destruct cs as [|c cs]; [congruence|].
    unfold ParseUint. apply ParseUint_loop_overflow with (v := v);
      [consts; lia|exact Hv|exact E].
Qed.

(** The part of [ParseInt] after the sign, on digits that are out of
    range. *)
Lemma ParseInt_tail_range (s0 : string) (neg : bool) (cs : list ascii) (u : Z) :
  cs <> [] -> decimal_digits cs 0 = Some u ->
  ~ is_int64 (if neg then - u else u) ->
  (let '(un, err) := ParseUint cs in
   match err with
   | Some (NumErrRange _ _) | None =>
       let cutoff := 2 ^ 63 in
       if negb neg && (un >=? cutoff) then
         (int64 (cutoff - 1), Some (NumErrRange "ParseInt" s0))
       else if neg && (un >? cutoff) then
         (int64 (- cutoff), Some (NumErrRange "ParseInt" s0))
       else
         let n := int64 un in
         (if neg then int64 (- n) else n, None)
   | Some _ => (0, Some (NumErrSyntax "ParseInt" s0))
   end) = (clamp_int64 (if neg then - u else u),
           Some (NumErrRange "ParseInt" s0)).
Proof.
  intros Hne Hu Hout.
  assert (Hpos : 0 <= u) by (apply decimal_digits_le in Hu; lia).
  rewrite (ParseUint_digits cs u Hne Hu). cbv zeta.
  assert (H1 : int64 (2 ^ 63 - 1) = 2 ^ 63 - 1) by reflexivity.
  assert (H2 : int64 (- 2 ^ 63) = - 2 ^ 63) by reflexivity.
  unfold is_int64, clamp_int64, maxUint64 in *.
  destruct (Z.ltb_spec u (2 ^ 64)); cbv beta iota zeta;
    rewrite H1, H2, ?Z.gtb_ltb, ?Z.geb_leb;
    destruct neg; cbn [negb andb];
    repeat match goal with
           | |- context [?a <? ?b] => destruct (Z.ltb_spec a b)
           | |- context [?a <=? ?b] => destruct (Z.leb_spec a b)
           end;
    try reflexivity; exfalso;
    change (2 ^ 64) with 18446744073709551616 in *;
    change (2 ^ 63) with 9223372036854775808 in *; lia.
Qed.

(** [ParseInt] on a numeral outside the [int64] range: the range error,
    with the nearest [int64]. *)
Lemma ParseInt_out_of_range (s : string) (n : Z) :
  decimal_numeral s = Some n -> ~ is_int64 n ->
  ParseInt s = (clamp_int64 n, Some (NumErrRange "ParseInt" s)).
Proof.
  unfold ParseInt, decimal_numeral.
  destruct (bytes.of_string s) as [|c rest]; [discriminate|].
  destruct (Ascii.eqb c "+") eqn:Eplus; [|destruct (Ascii.eqb c "-") eqn:Eminus].
  - destruct rest as [|c' rest']; [discriminate|]. intros Hn Hout.
    apply (ParseInt_tail_range s false (c' :: rest') n); [discriminate|exact Hn|exact Hout].
  - destruct rest as [|c' rest']; [discriminate|].
    destruct (decimal_digits (c' :: rest') 0) as [u|] eqn:Hu; [|discriminate].
    intros [= <-] Hout.
    apply (ParseInt_tail_range s true (c' :: rest') u); [discriminate|exact Hu|exact Hout].
  - intros Hn Hout.
    apply (ParseInt_tail_range s false (c :: rest) n); [discriminate|exact Hn|exact Hout].
Qed.

End strconv_range.

(** ** The typical fields *)

Section TypicalFacts.

Variable Encode :
  securecookie.SecureCookie -> string -> gmap Dyn Dyn -> string + string.
Variable Decode :
  securecookie.SecureCookie -> string -> string -> gmap Dyn Dyn + string.

Lemma answer_GetUserID (c : Config) (r : sessions.Request) :
  answer (GetUserID Decode c r)
  = parse_answer (answer (GetValue Decode c r keyUserID)).
Proof.
  unfold GetUserID. destruct (GetValue Decode c r keyUserID)
    as [[[valStr [e|]] r0]|]; cbn; try reflexivity.
  destruct (strconv.ParseInt valStr); reflexivity.
Qed.

Lemma answer_GetSessionID (c : Config) (r : sessions.Request) :
  answer (GetSessionID Decode c r)
  = parse_answer (answer (GetValue Decode c r keySessionID)).
Proof.
  unfold GetSessionID. destruct (GetValue Decode c r keySessionID)
    as [[[valStr [e|]] r0]|]; cbn; try reflexivity.
  destruct (strconv.ParseInt valStr); reflexivity.
Qed.

Lemma GetValue_after_AddValue (c : Config)
    (r r' : sessions.Request) (w w' : http.ResponseWriter)
    (err : option error) (key value other : string) :
  other <> key ->
  AddValue Encode Decode c w r key value = Ret (err, r', w') ->
  answer (GetValue Decode c r' other) = answer (GetValue Decode c r other).
Proof.
  intros Hne Hadd. rewrite AddValue_shape in Hadd.
  eapply GetValue_after_write; [| |exact Hadd]; intros s0; [reflexivity|].
  cbn. apply lookup_insert_ne. congruence.
Qed.

(** X17: the round trips of the other typical fields.  A username, a token
    and a session ID written by [AddUsername], [AddToken] and [AddSessionID]
    are what [GetUsername], [GetToken] and [GetSessionID] read back from the
    request. *)
Theorem typical_round_trips (c : Config) (r r' : sessions.Request)
    (w w' : http.ResponseWriter) :
  (forall value,
      AddUsername Encode Decode c w r value = Ret (None, r', w') ->
      GetUsername Decode c r' = Ret (value, None, r')) /\
  (forall value,
      AddToken Encode Decode c w r value = Ret (None, r', w') ->
      GetToken Decode c r' = Ret (value, None, r')) /\
  (forall n,
      is_int64 n ->
      AddSessionID Encode Decode c w r n = Ret (None, r', w') ->
      GetSessionID Decode c r' = Ret (n, None, r')).
Proof.
  split; [|split].
  - intros value H. unfold AddUsername in H. unfold GetUsername.
    now apply AddValue_then_GetValue in H.
  - intros value H. unfold AddToken in H. unfold GetToken.
    now apply AddValue_then_GetValue in H.
  - intros n Hn H. unfold AddSessionID in H. unfold GetSessionID.
    apply AddValue_then_GetValue in H. rewrite H. cbn.
    now rewrite (strconv_facts.ParseInt_FormatInt n Hn).
Qed.

(** X18: the typical fields do not share a key.  Adding one of them leaves
    what the getters of the three others answer as it was. *)
Theorem typical_fields_independent (c : Config) (r r' : sessions.Request)
    (w w' : http.ResponseWriter) (err : option error) :
  (forall value,
      AddUsername Encode Decode c w r value = Ret (err, r', w') ->
      answer (GetUserID Decode c r') = answer (GetUserID Decode c r) /\
      answer (GetToken Decode c r') = answer (GetToken Decode c r) /\
      answer (GetSessionID Decode c r') = answer (GetSessionID Decode c r)) /\
  (forall n,
      AddUserID Encode Decode c w r n = Ret (err, r', w') ->
      answer (GetUsername Decode c r') = answer (GetUsername Decode c r) /\
      answer (GetToken Decode c r') = answer (GetToken Decode c r) /\
      answer (GetSessionID Decode c r') = answer (GetSessionID Decode c r)) /\
  (forall value,
      AddToken Encode Decode c w r value = Ret (err, r', w') ->
      answer (GetUsername Decode c r') = answer (GetUsername Decode c r) /\
      answer (GetUserID Decode c r') = answer (GetUserID Decode c r) /\
      answer (GetSessionID Decode c r') = answer (GetSessionID Decode c r)) /\
  (forall n,
      AddSessionID Encode Decode c w r n = Ret (err, r', w') ->
      answer (GetUsername Decode c r') = answer (GetUsername Decode c r) /\
      answer (GetUserID Decode c r') = answer (GetUserID Decode c r) /\
      answer (GetToken Decode c r') = answer (GetToken Decode c r)).
Proof.
  repeat split;
    rewrite ?answer_GetUserID, ?answer_GetSessionID;
    unfold GetUsername, GetToken;
    try match goal with
        | |- parse_answer _ = parse_answer _ => apply (f_equal parse_answer)
        end;
    (eapply GetValue_after_AddValue;
     [|match goal with H : _ = Ret _ |- _ => exact H end]);
    discriminate.
Qed.

(** X19: what [GetUserID] returns for a session that loads.  Without a
    string under the key: 0 and [ErrKeyNotFound].  With a numeral -- an
    optional sign and decimal digits, leading zeros allowed -- of the [int64]
    range: its number and no error.  With a numeral out of that range: the
    nearest [int64] and the range error of [strconv.ParseInt].  With any
    other string: an error of [strconv.ParseInt]. *)
Theorem GetUserID_outcome (c : Config) (r r0 : sessions.Request)
    (s : sessions.Session)
    (Hget : GetSession Decode c r = Ret (Some s, None, r0)) :
  match as_string (sessions.Values s !! DStr keyUserID) with
  | None => GetUserID Decode c r = Ret (0, Some ErrKeyNotFound, r0)
  | Some valStr =>
      match decimal_numeral valStr with
      | Some n =>
          (is_int64 n /\ GetUserID Decode c r = Ret (n, None, r0)) \/
          (~ is_int64 n /\
           GetUserID Decode c r
           = Ret (clamp_int64 n, Some (NumErrRange "ParseInt" valStr), r0))
      | None =>
          exists v e,
            GetUserID Decode c r = Ret (v, Some e, r0) /\
            (e = NumErrSyntax "ParseInt" valStr \/
             e = NumErrRange "ParseInt" valStr)
      end
  end.
Proof.
  unfold GetUserID. rewrite (GetValue_of_GetSession _ _ _ _ _ _ Hget).
  destruct (as_string (sessions.Values s !! DStr keyUserID)) as [valStr|];
    [|reflexivity].
  cbn. destruct (decimal_numeral valStr) as [n|] eqn:En.
  - destruct (Z_le_dec (- 2 ^ 63) n) as [Hlo|Hlo];
      [destruct (Z_lt_dec n (2 ^ 63)) as [Hhi|Hhi]|].
    + left. split; [split; assumption|].
      rewrite (proj2 (strconv_facts.ParseInt_spec valStr n));
        [reflexivity|]. split; [exact En|split; assumption].
    + right. assert (Hout : ~ is_int64 n) by (unfold is_int64; lia).
      split; [exact Hout|].
      now rewrite (strconv_range.ParseInt_out_of_range valStr n En Hout).
    + right. assert (Hout : ~ is_int64 n) by (unfold is_int64; lia).
      split; [exact Hout|].
      now rewrite (strconv_range.ParseInt_out_of_range valStr n En Hout).
  - destruct (strconv.ParseInt valStr) as [v [e|]] eqn:E.
    + exists v, e. split; [reflexivity|].
      now apply strconv_facts.ParseInt_error in E.
    + apply strconv_facts.ParseInt_spec in E. destruct E as [E _]. congruence.
Qed.

End TypicalFacts.

Section CookieFacts.

Variable Encode :
  securecookie.SecureCookie -> string -> gmap Dyn Dyn -> string + string.
Variable Decode :
  securecookie.SecureCookie -> string -> string -> gmap Dyn Dyn + string.
Variable int_Seconds : Z -> Z.

(** X20: the cookie of [Extend] and [Destroy] shows the fields of the
    configuration as they are at the call, nothing is validated or
    defaulted on the way: domain, path, flags and same-site mode are the
    fields, the maximum age is the seconds of [MaxAge] for [Extend] and -1
    for [Destroy].  A field set after [Init] takes effect at once. *)
Theorem Extend_Destroy_cookie_fields (c : Config)
    (r r' : sessions.Request) (w w' : http.ResponseWriter) :
  (Extend Encode Decode int_Seconds c w r = Ret (None, r', w') ->
   exists ck,
     w' = w ++ [ck] /\
     http.Domain ck = Domain c /\ http.Path ck = Path c /\
     http.MaxAge ck = int_Seconds (MaxAge c) /\
     http.Secure ck = Secure c /\ http.HttpOnly ck = HTTPOnly c /\
     http.SameSiteAttr ck = SameSite c) /\
  (Destroy Encode Decode int_Seconds c w r = Ret (None, r', w') ->
   exists ck,
     w' = w ++ [ck] /\
     http.Domain ck = Domain c /\ http.Path ck = Path c /\
     http.MaxAge ck = -1 /\
     http.Secure ck = Secure c /\ http.HttpOnly ck = HTTPOnly c /\
     http.SameSiteAttr ck = SameSite c).
Proof.
  split; intros H;
    [rewrite (Extend_shape Encode Decode int_Seconds) in H
    |rewrite (Destroy_shape Encode Decode int_Seconds) in H];
    pose proof H as H';
    apply write_and_save_inv in H';
    destruct H' as [(s & r0 & Hget & _ & _)|(so & e & _ & [=] & _)];
    destruct (write_and_save_cookie _ _ _ _ _ _ _ _ _ _ Hget H) as [enc ->];
    eexists; (split; [reflexivity|]); cbn; repeat split; reflexivity.
Qed.

End CookieFacts.

(** ** The package-level configuration *)

Section ConfigureFacts.

Variable int_Seconds : Z -> Z.

Lemma configure_fields (domain path : string) (maxAge : Z)
    (secure httpOnly : bool) (sameSite : http.SameSite) (cookieName : string)
    (c : Config) :
  configure domain path maxAge secure httpOnly sameSite cookieName c
  = {| Domain := domain; Path := path; MaxAge := maxAge;
       HTTPOnly := httpOnly; Secure := secure; SameSite := sameSite;
       CookieName := cookieName; AuthKey := AuthKey c;
       EncryptKey := EncryptKey c; store := store c |}.
Proof. destruct c; reflexivity. Qed.

(** X21: the typical set-up succeeds.  After [DefaultConfig], whatever the
    package configuration was before and whatever the setters (those of the
    keys apart) are given, [Init] succeeds as soon as the maximum age is a
    second or more: it generates both keys from the random source, 64 bytes
    first and 32 after, keeps the maximum age, the flags and the cookie
    name as set, and binds the store. *)
Theorem typical_setup (rnd : securecookie.Entropy) (config : Config)
    (domain path : string) (maxAge : Z) (secure httpOnly : bool)
    (sameSite : http.SameSite) (cookieName : string)
    (Hage : 1 * Second <= maxAge) :
  exists c',
    pkg.Init int_Seconds rnd
      (configure domain path maxAge secure httpOnly sameSite cookieName
         (pkg.DefaultConfig config))
    = (None, c',
       (securecookie.GenerateRandomKey 32
          (securecookie.GenerateRandomKey 64 rnd).2).2) /\
    valid c' /\ store c' = Some (binding int_Seconds c') /\
    AuthKey c' = (securecookie.GenerateRandomKey 64 rnd).1 /\
    EncryptKey c'
    = (securecookie.GenerateRandomKey 32
         (securecookie.GenerateRandomKey 64 rnd).2).1 /\
    MaxAge c' = maxAge /\ Secure c' = secure /\ HTTPOnly c' = httpOnly /\
    CookieName c' = cookieName.
Proof.
  rewrite configure_fields. unfold pkg.DefaultConfig, pkg.Init, Init.
  change (AuthKey NewConfig) with ""%string.
  change (EncryptKey NewConfig) with ""%string.
  change (store NewConfig) with (@None sessions.CookieStore).
  destruct (validate rnd _) as [[err cv] rnd'] eqn:E.
  assert (err = None /\ rnd' = (securecookie.GenerateRandomKey 32
                                 (securecookie.GenerateRandomKey 64 rnd).2).2 /\
          AuthKey cv = (securecookie.GenerateRandomKey 64 rnd).1 /\
          EncryptKey cv = (securecookie.GenerateRandomKey 32
                             (securecookie.GenerateRandomKey 64 rnd).2).1 /\
          MaxAge cv = maxAge /\ Secure cv = secure /\ HTTPOnly cv = httpOnly /\
          CookieName cv = cookieName) as (-> & -> & Ha & He & Hm & Hs & Hh & Hn).
  { revert E. unfold validate, authKeyLength, encryptKeyLength. proj_simpl.
    repeat validate_step; try (exfalso; reflect_tests; lia);
      cbn [String.length]; proj_simpl; repeat validate_step;
      intros [= <- <- <-]; proj_simpl;
      repeat match goal with
             | H : (_, _) = (_, _) |- _ => injection H as <- <-
             end; auto 10. }
  apply validate_ok_valid in E.
  eexists. split; [reflexivity|].
  split; [now apply valid_set_store|].
  destruct cv; cbn in *; auto 10.
Qed.

(** X22: setting the configuration up again keeps the keys.  After a
    successful [Init], the setters (those of the keys apart) with any values
    and a maximum age of a second or more, followed by [Init], succeed: the
    keys are the ones held before, byte for byte, no randomness is read, and
    the store is bound anew, to the options of the new fields. *)
Theorem reconfigure_keeps_keys (rnd rnd1 : securecookie.Entropy)
    (c c1 : Config) (domain path : string) (maxAge : Z)
    (secure httpOnly : bool) (sameSite : http.SameSite) (cookieName : string)
    (Hinit : Init int_Seconds rnd c = (None, c1, rnd1))
    (Hage : 1 * Second <= maxAge) :
  forall rnd2,
    exists c2,
      pkg.Init int_Seconds rnd2
        (configure domain path maxAge secure httpOnly sameSite cookieName c1)
      = (None, c2, rnd2) /\
      AuthKey c2 = AuthKey c1 /\ EncryptKey c2 = EncryptKey c1 /\
      store c2 = Some (binding int_Seconds c2) /\
      sessions.MaxAge (sessions.store_Options (binding int_Seconds c2))
      = int_Seconds maxAge /\
      sessions.Secure (sessions.store_Options (binding int_Seconds c2))
      = secure /\
      sessions.HttpOnly (sessions.store_Options (binding int_Seconds c2))
      = httpOnly /\
      CookieName c2 = cookieName.
Proof.
  intros rnd2. apply Init_ok_inv in Hinit. destruct Hinit as (cv & Hv & ->).
  apply validate_ok_valid in Hv. destruct Hv as (_ & _ & _ & _ & Ha & He).
  rewrite configure_fields. unfold pkg.Init, Init.
  destruct cv as [d p m h s ss n a e st]. proj_simpl.
  unfold authKeyLength, encryptKeyLength in *.
  destruct (validate rnd2 _) as [[err c2] rnd'] eqn:E.
  assert (err = None /\ rnd' = rnd2 /\ AuthKey c2 = a /\ EncryptKey c2 = e /\
          MaxAge c2 = maxAge /\ Secure c2 = secure /\ HTTPOnly c2 = httpOnly /\
          CookieName c2 = cookieName) as (-> & -> & Hak & Hek & Hm & Hs & Hh & Hn).
  { revert E. validate_cases; reflect_tests;
      unfold authKeyLength, encryptKeyLength in *;
      try (exfalso; lia); try congruence;
      intros [= <- <- <-]; proj_simpl; auto 10. }
  eexists. split; [reflexivity|].
  destruct c2; cbn in *; subst; auto 10.
Qed.

End ConfigureFacts.

(** ** The properties above on concrete inputs *)

(** Evaluate the call [t] and keep the equation. *)
Ltac run t H :=
  let out := eval vm_compute in t in
  assert (H : t = out) by (vm_compute; reflexivity).

(** [Init_idempotent] on the default configuration. *)
Lemma Init_idempotent_witness :
  Init example_Seconds example_rnd example_config
  = (None, example_config, example_rnd).
Proof.
  apply (Init_idempotent example_Seconds example_rnd
           (Init example_Seconds example_rnd NewConfig).2 NewConfig).
  reflexivity.
Defined.

(** [store_set_no_panic] on a request whose cookie does not verify. *)
Lemma store_set_no_panic_witness :
  (exists out, GetSession example_Decode example_config request_tampered
               = Ret out) /\
  (exists out, GetValue example_Decode example_config request_tampered "key"
               = Ret out) /\
  (exists out, AddValue example_Encode example_Decode example_config []
                 request_tampered "key" "value" = Ret out) /\
  (exists out, Extend example_Encode example_Decode example_Seconds
                 example_config [] request_tampered = Ret out) /\
  (exists out, Destroy example_Encode example_Decode example_Seconds
                 example_config [] request_tampered = Ret out).
Proof.
  apply (store_set_no_panic example_Encode example_Decode example_Seconds
           example_config example_store).
  reflexivity.
Defined.

(** [GetAllValues_panics_iff] on a cookie that holds an integer. *)
Lemma GetAllValues_panics_iff_witness :
  (exists msg, GetAllValues example_Decode example_config request_int
               = Panic msg) <->
  (exists s r',
      GetSession example_Decode example_config request_int
      = Ret (Some s, None, r') /\
      ~ all_strings (sessions.Values s)).
Proof.
  apply (GetAllValues_panics_iff example_Decode example_config example_store).
  reflexivity.
Defined.

(** [rejected_cookie_blocks] on a request whose cookie does not verify. *)
Lemma rejected_cookie_blocks_witness :
  exists r',
    AddValue example_Encode example_Decode example_config [] request_tampered
      "key" "value"
    = Ret (Some (MultiError ["securecookie: the value is not valid"%string]),
           r', []) /\
    GetValue example_Decode example_config r' "key"
    = Ret (""%string,
           Some (MultiError ["securecookie: the value is not valid"%string]),
           r').
Proof.
  destruct (rejected_cookie_blocks example_Encode example_Decode
              example_Seconds example_config example_store request_tampered
              [] "key" "value" "t-kw"
              (MultiError ["securecookie: the value is not valid"%string]))
    as (r' & H1 & _ & _ & _ & _ & _ & _ & _ & H2);
    try (vm_compute; reflexivity).
  exists r'. split; assumption.
Defined.

(** [AddValue_cookie_options] on a first access: the configuration has
    another maximum age by now, the cookie has the one of [Init]. *)
Lemma AddValue_cookie_options_witness :
  exists r' w' encoded,
    AddValue example_Encode example_Decode
      (set_MaxAge (2 * Hour) example_config) [] request_plain "key" "value"
    = Ret (None, r', w') /\
    w' = [] ++ [sessions.NewCookie "session" encoded
                  (sessions.store_Options example_store)] /\
    sessions.MaxAge (sessions.store_Options example_store) = 3600.
Proof.
  run (AddValue example_Encode example_Decode
         (set_MaxAge (2 * Hour) example_config) [] request_plain "key" "value")
      Hadd.
  destruct (AddValue_cookie_options example_Encode example_Decode
              (set_MaxAge (2 * Hour) example_config) example_store
              request_plain _ [] _ "key" "value"
              eq_refl eq_refl eq_refl Hadd) as [encoded Hw].
  eexists _, _, encoded. split; [exact Hadd|]. split; [exact Hw|reflexivity].
Defined.

(** [AddValue_after_Destroy] on a request with a good cookie. *)
Lemma AddValue_after_Destroy_witness :
  exists r1 w1 r2 w3 name encoded,
    Destroy example_Encode example_Decode example_Seconds example_config []
      request_kv = Ret (None, r1, w1) /\
    AddValue example_Encode example_Decode example_config [] r1 "key" "value"
    = Ret (None, r2, w3) /\
    w3 = [] ++ [sessions.NewCookie name encoded
                  (sessions.set_MaxAge (-1)
                     (getOptions example_Seconds example_config))].
Proof.
  run (Destroy example_Encode example_Decode example_Seconds example_config []
         request_kv) Hd.
  match type of Hd with
  | _ = Ret (_, ?r1, _) =>
      run (AddValue example_Encode example_Decode example_config [] r1
             "key" "value") Ha
  end.
  destruct (AddValue_after_Destroy example_Encode example_Decode
              example_Seconds example_config _ _ _ _ _ _ _ _ _ _ Hd Ha)
    as (name & encoded & Hw).
  eexists _, _, _, _, name, encoded.
  split; [exact Hd|]. split; [exact Ha|exact Hw].
Defined.

(** [AddValue_value_stays] on a value the example codec cannot seal: the
    save fails, no cookie is written, the value is read back. *)
Lemma AddValue_value_stays_witness :
  exists e r',
    AddValue example_Encode example_Decode example_config [] request_plain
      "key" "unsealable" = Ret (Some e, r', []) /\
    GetValue example_Decode example_config r' "key"
    = Ret ("unsealable"%string, None, r').
Proof.
  run (GetSession example_Decode example_config request_plain) Hg.
  run (AddValue example_Encode example_Decode example_config [] request_plain
         "key" "unsealable") Ha.
  destruct (AddValue_value_stays example_Encode example_Decode example_config
              _ _ _ _ _ _ _ _ _ Hg Ha) as [Hread _].
  eexists _, _. split; [exact Ha|exact Hread].
Defined.

(** [AddValue_other_key] on a request with a good cookie. *)
Lemma AddValue_other_key_witness :
  exists r' w',
    AddValue example_Encode example_Decode example_config [] request_abc
      "key" "unsealable" = Ret (Some (MultiError
                                   ["securecookie: the value is too long"%string]),
                                r', w') /\
    answer (GetValue example_Decode example_config r' "user_id")
    = answer (GetValue example_Decode example_config request_abc "user_id").
Proof.
  run (AddValue example_Encode example_Decode example_config [] request_abc
         "key" "unsealable") Ha.
  eexists _, _. split; [exact Ha|].
  apply (AddValue_other_key example_Encode example_Decode example_config
           _ _ _ _ _ "key" "unsealable" "user_id" ltac:(discriminate) Ha).
Defined.

(** [Extend_Destroy_keep_values] on [Destroy] and a good cookie. *)
Lemma Extend_Destroy_keep_values_witness :
  exists r' w',
    Destroy example_Encode example_Decode example_Seconds example_config []
      request_kv = Ret (None, r', w') /\
    answer (GetValue example_Decode example_config r' "key")
    = answer (GetValue example_Decode example_config request_kv "key") /\
    answer (GetValue example_Decode example_config request_kv "key")
    = Ret ("value"%string, None).
Proof.
  run (Destroy example_Encode example_Decode example_Seconds example_config []
         request_kv) Hd.
  eexists _, _. split; [exact Hd|]. split; [|vm_compute; reflexivity].
  apply (Extend_Destroy_keep_values example_Encode example_Decode
           example_Seconds example_config _ _ _ _ _ "key" (or_intror Hd)).
Defined.

(** [GetValue_repeatable] on a good cookie. *)
Lemma GetValue_repeatable_witness :
  exists r',
    GetValue example_Decode example_config request_kv "wrong key"
    = Ret (""%string, Some ErrKeyNotFound, r') /\
    answer (GetValue example_Decode example_config r' "key")
    = answer (GetValue example_Decode example_config request_kv "key").
Proof.
  run (GetValue example_Decode example_config request_kv "wrong key") Hr.
  eexists. split; [exact Hr|].
  apply (GetValue_repeatable example_Decode example_config _ _ "key"
           "wrong key" _ _ Hr).
Defined.

(** [invalid_cookie_name] on a name with a space, set after [Init]. *)
Lemma invalid_cookie_name_witness :
  GetSession example_Decode (set_CookieName "bad name" example_config)
    request_kv
  = Ret (None, Some (ErrCookieName "bad name"), request_kv) /\
  AddValue example_Encode example_Decode
    (set_CookieName "bad name" example_config) [] request_kv "key" "value"
  = Ret (Some (ErrCookieName "bad name"), request_kv, []).
Proof.
  destruct (invalid_cookie_name example_Encode example_Decode example_Seconds
              (set_CookieName "bad name" example_config) request_kv []
              "key" "value" eq_refl) as (_ & H1 & H2 & _).
  split; assumption.
Defined.

(** [key_rotation] on the keys of [TestDefaultConfig]. *)
Lemma key_rotation_witness :
  store (pkg.Keys
           "asdfasdfasdfasdfasdfasdfasdfasdfasdfasdfasdfasdfasdfasdfasdfasdf"
           "asdfasdfasdfasdfasdfasdfasdfasdf" example_config)
  = store example_config /\
  exists c2,
    Init example_Seconds example_rnd
      (pkg.Keys
         "asdfasdfasdfasdfasdfasdfasdfasdfasdfasdfasdfasdfasdfasdfasdfasdf"
         "asdfasdfasdfasdfasdfasdfasdfasdf" example_config)
    = (None, c2, example_rnd) /\
    sessions.Codecs (binding example_Seconds c2)
    = [securecookie.New
         "asdfasdfasdfasdfasdfasdfasdfasdfasdfasdfasdfasdfasdfasdfasdfasdf"
         "asdfasdfasdfasdfasdfasdfasdfasdf"].
Proof.
  destruct (key_rotation example_Encode example_Decode example_Seconds
              example_rnd (Init example_Seconds example_rnd NewConfig).2
              NewConfig example_config
              "asdfasdfasdfasdfasdfasdfasdfasdfasdfasdfasdfasdfasdfasdfasdfasdf"
              "asdfasdfasdfasdfasdfasdfasdfasdf" eq_refl eq_refl eq_refl)
    as (Hs & _ & Hinit).
  split; [exact Hs|].
  destruct (Hinit example_rnd) as (c2 & Hi & _ & _ & _ & Hc).
  exists c2. split; assumption.
Defined.

(** [GetUserID_outcome] on a cookie whose user ID is the string abc. *)
Lemma GetUserID_outcome_witness :
  exists v e r0,
    GetUserID example_Decode example_config request_abc = Ret (v, Some e, r0) /\
    (e = NumErrSyntax "ParseInt" "abc" \/ e = NumErrRange "ParseInt" "abc").
Proof.
  run (GetSession example_Decode example_config request_abc) Hg.
  pose proof (GetUserID_outcome example_Decode example_config
                _ _ _ Hg) as H.
  vm_compute as_string in H.
  change (decimal_numeral "abc") with (@None Z) in H. cbv iota in H.
  destruct H as (v & e & Hrun & He).
  exists v, e. eexists. split; [exact Hrun|exact He].
Defined.

(** [typical_setup] on the values of the package's tests. *)
Lemma typical_setup_witness :
  exists c' rnd',
    pkg.Init example_Seconds example_rnd
      (configure "example.com" "/app" (2 * Hour) true true 2 "sid" pkg.zero)
    = (None, c', rnd') /\
    MaxAge c' = 2 * Hour /\ CookieName c' = "sid"%string /\
    String.length (AuthKey c') = 64%nat.
Proof.
  destruct (typical_setup example_Seconds example_rnd pkg.zero "example.com"
              "/app" (2 * Hour) true true 2 "sid" ltac:(vm_compute; discriminate))
    as (c' & Hi & (_ & _ & _ & _ & Hlen & _) & _ & _ & _ & Hm & _ & _ & Hn).
  eexists c', _. split; [exact Hi|]. split; [exact Hm|]. split; [exact Hn|].
  exact Hlen.
Defined.

(** [reconfigure_keeps_keys] on [example_config]: a blank domain and a
    maximum age of one second. *)
Lemma reconfigure_keeps_keys_witness :
  exists c2,
    pkg.Init example_Seconds example_rnd
      (configure " " "/app" Second true false 0 "sid" example_config)
    = (None, c2, example_rnd) /\
    AuthKey c2 = AuthKey example_config /\
    EncryptKey c2 = EncryptKey example_config.
Proof.
  destruct (reconfigure_keeps_keys example_Seconds example_rnd
              (Init example_Seconds example_rnd NewConfig).2 NewConfig
              example_config " " "/app" Second true false 0 "sid" eq_refl
              ltac:(vm_compute; discriminate) example_rnd)
    as (c2 & Hi & Ha & He & _).
  exists c2. split; [exact Hi|]. split; assumption.
Defined.

(** [typical_round_trips] on a username. *)
Lemma typical_round_trips_witness :
  exists r' w',
    AddUsername sealing_Encode example_Decode example_config [] request_plain
      "ann" = Ret (None, r', w') /\
    GetUsername example_Decode example_config r' = Ret ("ann"%string, None, r').
Proof.
  run (AddUsername sealing_Encode example_Decode example_config []
         request_plain "ann") Ha.
  eexists _, _. split; [exact Ha|].
  exact (proj1 (typical_round_trips sealing_Encode example_Decode
                  example_config request_plain _ [] _) "ann" Ha).
Defined.

(** [typical_fields_independent] on a user ID. *)
Lemma typical_fields_independent_witness :
  exists r' w',
    AddUserID example_Encode example_Decode example_config [] request_plain 42
    = Ret (None, r', w') /\
    answer (GetUsername example_Decode example_config r')
    = answer (GetUsername example_Decode example_config request_plain) /\
    answer (GetUsername example_Decode example_config request_plain)
    = Ret (""%string, Some ErrKeyNotFound).
Proof.
  run (AddUserID example_Encode example_Decode example_config []
         request_plain 42) Ha.
  eexists _, _. split; [exact Ha|]. split; [|vm_compute; reflexivity].
  exact (proj1 (proj1 (proj2 (typical_fields_independent example_Encode
                                example_Decode example_config request_plain
                                _ [] _ None)) 42 Ha)).
Defined.

(** [Extend_Destroy_cookie_fields] on [Extend], after the maximum age was
    set to two hours. *)
Lemma Extend_Destroy_cookie_fields_witness :
  exists r' w' ck,
    Extend example_Encode example_Decode example_Seconds
      (set_MaxAge (2 * Hour) example_config) [] request_kv
    = Ret (None, r', w') /\
    w' = [] ++ [ck] /\ http.MaxAge ck = 7200.
Proof.
  run (Extend example_Encode example_Decode example_Seconds
         (set_MaxAge (2 * Hour) example_config) [] request_kv) He.
  destruct (proj1 (Extend_Destroy_cookie_fields example_Encode example_Decode
                     example_Seconds (set_MaxAge (2 * Hour) example_config)
                     request_kv _ [] _) He)
    as (ck & Hw & _ & _ & Hm & _).
  eexists _, _, ck. split; [exact He|]. split; [exact Hw|exact Hm].
Defined.
